(** * A reverse-mode autograd engine: [Alpha2.0/autograd/tensor.py]

    The development embeds the [Tensor] class, its [Dependency] edges, the
    operation constructors ([_tensor_sum], [_add], [_multiply], [_neg],
    [_sub], [_matmul], [_slice]) and [Tensor.backward], together with the
    fragment of the dense-array substrate (numpy) that they call.

    Python objects are mutable and shared: tensors live in a store and are
    named by references; the closures that the constructors build capture
    tensor references (and, for [_slice], the local values [data] and
    [idxs]) and read the store when they are called. *)

From Stdlib Require Import ZArith Lia.
From stdpp Require Import base list strings.

Set Default Proof Using "Type".

(** ** Array elements

    The source computes on numpy floating-point arrays.  Nothing below
    depends on the element type beyond its five operations, so it is left
    abstract; integers give a computable instance. *)

Class Scalar (R : Type) := {
  rzero : R;
  rone : R;
  radd : R -> R -> R;
  rmul : R -> R -> R;
  rneg : R -> R
}.

#[global] Instance Z_Scalar : Scalar Z :=
  {| rzero := 0%Z; rone := 1%Z; radd := Z.add; rmul := Z.mul; rneg := Z.opp |}.

(** ** Exceptions *)

Inductive pyclass := NoneType | TensorClass | FunctionClass.

(** [AttributeError c a]: an object of class [c] has no attribute [a].
    [OutOfModel] is not a Python exception: it marks what lies outside the
    model, namely the matrix product and the transpose of arrays of rank
    three or more, and a reference that names no object of the store. *)
Inductive exn :=
| AssertionError
| RuntimeError
| AttributeError (c : pyclass) (a : string)
| ValueError
| IndexError
| AxisError
| RecursionError
| OutOfModel.

(** The spec's names for the two failures raised by [backward] itself. *)
Definition NotDifferentiable : exn := AssertionError.
Definition MissingGradient : exn := RuntimeError.

Inductive result (A : Type) :=
| Ok (a : A)
| Raise (e : exn).
Arguments Ok {A} a.
Arguments Raise {A} e.

Definition rbind {A B} (r : result A) (f : A -> result B) : result B :=
  match r with
  | Ok a => f a
  | Raise e => Raise e
  end.

(** ** Dense arrays: row-major elements with an explicit shape *)

Record ndarray (R : Type) := mk_ndarray {
  nd_shape : list nat;
  nd_elems : list R
}.
Arguments mk_ndarray {R} nd_shape nd_elems.
Arguments nd_shape {R} n.
Arguments nd_elems {R} n.

(** Index expressions, acting on the first axis: [t[i]], [t[start:stop]],
    [t[[i0, i1, ...]]] (fancy index) and [t[mask]] (boolean mask). *)
Inductive index :=
| idx_int (i : Z)
| idx_slice (start stop : option Z)
| idx_fancy (l : list Z)
| idx_mask (m : list bool).

Definition size_of (s : list nat) : nat := fold_right Nat.mul 1 s.

Definition nd_ndim {R} (a : ndarray R) : nat := length (nd_shape a).

(** The array invariant: as many elements as the shape announces. *)
Definition nd_wf {R} (a : ndarray R) : Prop :=
  length (nd_elems a) = size_of (nd_shape a).

(** *** Broadcasting of shapes (numpy's rule: align right, sizes agree or
    one of them is 1) *)

Definition pad_shape (n : nat) (s : list nat) : list nat :=
  replicate (n - length s) 1 ++ s.

Definition broadcast_dim (d e : nat) : option nat :=
  if d =? e then Some d
  else if d =? 1 then Some e
  else if e =? 1 then Some d
  else None.

Fixpoint broadcast_dims (s t : list nat) : option (list nat) :=
  match s, t with
  | [], [] => Some []
  | d :: s', e :: t' =>
      match broadcast_dim d e, broadcast_dims s' t' with
      | Some x, Some r => Some (x :: r)
      | _, _ => None
      end
  | _, _ => None
  end.

Definition broadcast_shapes (s t : list nat) : option (list nat) :=
  let n := Nat.max (length s) (length t) in
  broadcast_dims (pad_shape n s) (pad_shape n t).

Section Numpy.
Context {R : Type} `{!Scalar R}.

Definition np_array (x : R) : ndarray R := mk_ndarray [] [x].

Definition np_array_list (l : list R) : ndarray R :=
  mk_ndarray [length l] l.

Definition zeros_like (a : ndarray R) : ndarray R :=
  mk_ndarray (nd_shape a) (replicate (size_of (nd_shape a)) rzero).

Definition ones_like (a : ndarray R) : ndarray R :=
  mk_ndarray (nd_shape a) (replicate (size_of (nd_shape a)) rone).

(** [chunks n m l]: the first [n] consecutive blocks of [m] elements. *)
Fixpoint chunks (n m : nat) (l : list R) : list (list R) :=
  match n with
  | 0 => []
  | S n' => take m l :: chunks n' m (drop m l)
  end.

(** [expand s t l]: the elements of an array of shape [s] repeated to
    fill shape [t], for [s] and [t] of one rank and [s] broadcastable
    to [t]. *)
Fixpoint expand (s t : list nat) (l : list R) : list R :=
  match s, t with
  | d :: s', e :: t' =>
      if d =? e
      then concat (map (expand s' t') (chunks d (size_of s') l))
      else concat (replicate e (expand s' t' l))
  | _, _ => l
  end.

Definition broadcast_to (a : ndarray R) (t : list nat) : list R :=
  expand (pad_shape (length t) (nd_shape a)) t (nd_elems a).

Definition nd_binop (f : R -> R -> R) (a b : ndarray R)
  : result (ndarray R) :=
  match broadcast_shapes (nd_shape a) (nd_shape b) with
  | Some s =>
      Ok (mk_ndarray s (zip_with f (broadcast_to a s) (broadcast_to b s)))
  | None => Raise ValueError
  end.

(** [a + b], [a * b], [- a] *)
Definition nd_add := nd_binop radd.
Definition nd_mul := nd_binop rmul.
Definition nd_neg (a : ndarray R) : ndarray R :=
  mk_ndarray (nd_shape a) (map rneg (nd_elems a)).

(** add.reduce over a list: the empty sum is 0, otherwise the
    elements are added left to right starting from the first. *)
Definition rsum (l : list R) : R :=
  match l with
  | [] => rzero
  | x :: xs => fold_left radd xs x
  end.

(** [a.sum()] *)
Definition nd_sum (a : ndarray R) : ndarray R :=
  np_array (rsum (nd_elems a)).

(** Sum of [rows], each of [m] elements, position by position. *)
Definition sum_rows (m : nat) (rows : list (list R)) : list R :=
  match rows with
  | [] => replicate m rzero
  | r :: rs => fold_left (zip_with radd) rs r
  end.

(** [a.sum(axis=axis, keepdims=keepdims)] for [axis >= 0] *)
Definition nd_sum_axis (axis : nat) (keepdims : bool) (a : ndarray R)
  : result (ndarray R) :=
  let s := nd_shape a in
  match s !! axis with
  | None => Raise AxisError
  | Some d =>
      let pre := take axis s in
      let post := drop (S axis) s in
      let inner := size_of post in
      Ok (mk_ndarray
            (pre ++ (if keepdims then [1] else []) ++ post)
            (concat (map (fun blk => sum_rows inner (chunks d inner blk))
                         (chunks (size_of pre) (d * inner) (nd_elems a)))))
  end.

(** Matrix product of two matrices given by their row-major elements. *)
Definition matmul2 (n k m : nat) (x y : list R) : list R :=
  flat_map (fun i =>
    map (fun j =>
      rsum (map (fun l => rmul (nth (i * k + l) x rzero)
                               (nth (l * m + j) y rzero))
                (seq 0 k)))
        (seq 0 m))
    (seq 0 n).

(** [a @ b]: 2-D operands; a 1-D operand is promoted to a row (left) or
    a column (right) and the added axis is removed from the result. *)
Definition nd_matmul (a b : ndarray R) : result (ndarray R) :=
  match nd_shape a, nd_shape b with
  | [n; k], [k'; m] =>
      if k =? k'
      then Ok (mk_ndarray [n; m] (matmul2 n k m (nd_elems a) (nd_elems b)))
      else Raise ValueError
  | [k], [k'; m] =>
      if k =? k'
      then Ok (mk_ndarray [m] (matmul2 1 k m (nd_elems a) (nd_elems b)))
      else Raise ValueError
  | [n; k], [k'] =>
      if k =? k'
      then Ok (mk_ndarray [n] (matmul2 n k 1 (nd_elems a) (nd_elems b)))
      else Raise ValueError
  | [k], [k'] =>
      if k =? k'
      then Ok (mk_ndarray [] (matmul2 1 k 1 (nd_elems a) (nd_elems b)))
      else Raise ValueError
  | [], _ | _, [] => Raise ValueError
  | _, _ => Raise OutOfModel
  end.

(** [a.T] *)
Definition nd_T (a : ndarray R) : result (ndarray R) :=
  match nd_shape a with
  | [] | [_] => Ok a
  | [n; m] =>
      Ok (mk_ndarray [m; n]
            (flat_map (fun j =>
               map (fun i => nth (i * m + j) (nd_elems a) rzero) (seq 0 n))
               (seq 0 m)))
  | _ => Raise OutOfModel
  end.

(** *** Indexing along the first axis *)

(** A Python index [i] into an axis of length [n]. *)
Definition norm_index (n : nat) (i : Z) : option nat :=
  if (0 <=? i)%Z && (i <? Z.of_nat n)%Z then Some (Z.to_nat i)
  else if (- Z.of_nat n <=? i)%Z && (i <? 0)%Z
       then Some (Z.to_nat (i + Z.of_nat n))
       else None.

(** A slice bound clipped into [0, n] ([slice.indices], step 1). *)
Definition clip_bound (n : nat) (dflt : nat) (b : option Z) : nat :=
  match b with
  | None => dflt
  | Some i =>
      let j := if (i <? 0)%Z then (i + Z.of_nat n)%Z else i in
      Z.to_nat (Z.min (Z.max j 0) (Z.of_nat n))
  end.

Fixpoint mask_positions (i : nat) (m : list bool) : list nat :=
  match m with
  | [] => []
  | b :: m' =>
      if b then i :: mask_positions (S i) m' else mask_positions (S i) m'
  end.

Fixpoint norm_indices (n : nat) (l : list Z) : option (list nat) :=
  match l with
  | [] => Some []
  | i :: l' =>
      match norm_index n i, norm_indices n l' with
      | Some p, Some ps => Some (p :: ps)
      | _, _ => None
      end
  end.

(** The rows of the first axis (of length [n]) selected by an index
    expression, in selection order; [IndexError] when out of range. *)
Definition positions (n : nat) (ix : index) : result (list nat) :=
  match ix with
  | idx_int i =>
      match norm_index n i with
      | Some p => Ok [p]
      | None => Raise IndexError
      end
  | idx_slice start stop =>
      let lo := clip_bound n 0 start in
      let hi := clip_bound n n stop in
      Ok (seq lo (hi - lo))
  | idx_fancy l =>
      match norm_indices n l with
      | Some ps => Ok ps
      | None => Raise IndexError
      end
  | idx_mask m =>
      if length m =? n then Ok (mask_positions 0 m) else Raise IndexError
  end.

(** Shape of the selection: an integer index removes the axis. *)
Definition region_shape (ix : index) (count : nat) (rest : list nat)
  : list nat :=
  match ix with
  | idx_int _ => rest
  | _ => count :: rest
  end.

(** [a[ix]] *)
Definition nd_getitem (a : ndarray R) (ix : index) : result (ndarray R) :=
  match nd_shape a with
  | [] => Raise IndexError
  | n :: rest =>
      rbind (positions n ix) (fun ps =>
        let m := size_of rest in
        Ok (mk_ndarray (region_shape ix (length ps) rest)
              (flat_map (fun p => take m (drop (p * m) (nd_elems a))) ps)))
  end.

(** Row [p] of [l] (rows of [m] elements) replaced by [row]. *)
Definition write_row (m p : nat) (row l : list R) : list R :=
  take (p * m) l ++ row ++ drop (S p * m) l.

(** Rows written one after the other: a later write to a position
    already written replaces the earlier one. *)
Fixpoint write_rows (m : nat) (ps : list nat) (rows : list (list R))
         (l : list R) : list R :=
  match ps, rows with
  | p :: ps', row :: rows' => write_rows m ps' rows' (write_row m p row l)
  | _, _ => l
  end.

(** One-directional broadcast of a value to a shape of at least its
    rank, as assignment does. *)
Definition broadcastable_to (s t : list nat) : bool :=
  (length s <=? length t) &&
  match broadcast_shapes s t with
  | Some r => bool_decide (r = t)
  | None => false
  end.

(** [a[ix] = v]: returns the array after the assignment. *)
Definition nd_setitem (a : ndarray R) (ix : index) (v : ndarray R)
  : result (ndarray R) :=
  match nd_shape a with
  | [] => Raise IndexError
  | n :: rest =>
      rbind (positions n ix) (fun ps =>
        let m := size_of rest in
        let rs := region_shape ix (length ps) rest in
        if broadcastable_to (nd_shape v) rs
        then Ok (mk_ndarray (nd_shape a)
                   (write_rows m ps
                      (chunks (length ps) m (broadcast_to v rs))
                      (nd_elems a)))
        else Raise ValueError)
  end.

End Numpy.


(** ** Tensors, dependency edges and the store *)

(** A reference to a [Tensor] object. *)
Abbreviation ref := nat.

(** The closures built by the operation constructors, each with the
    variables it captures.  A captured tensor is a reference: its
    attributes are read when the closure is called.  [_multiply] names
    both of its closures [grad_fn1]; the second is [multiply_grad_fn1'].
    The closure of [_slice] captures the local [data] (the selected
    sub-array) and [idxs]. *)
Inductive GradFn (R : Type) :=
| tensor_sum_grad_fn (t : ref)
| add_grad_fn1 (t1 : ref)
| add_grad_fn2 (t2 : ref)
| multiply_grad_fn1 (t1 t2 : ref)
| multiply_grad_fn1' (t1 t2 : ref)
| neg_grad_fn
| matmul_grad_fn1 (t2 : ref)
| matmul_grad_fn2 (t1 : ref)
| slice_grad_fn (data : ndarray R) (idxs : index).
Arguments tensor_sum_grad_fn {R} t.
Arguments add_grad_fn1 {R} t1.
Arguments add_grad_fn2 {R} t2.
Arguments multiply_grad_fn1 {R} t1 t2.
Arguments multiply_grad_fn1' {R} t1 t2.
Arguments neg_grad_fn {R}.
Arguments matmul_grad_fn1 {R} t2.
Arguments matmul_grad_fn2 {R} t1.
Arguments slice_grad_fn {R} data idxs.

(** [class Dependency(NamedTuple)] *)
Record Dependency (R : Type) := mkDependency {
  tensor : ref;
  grad_fn : GradFn R
}.
Arguments mkDependency {R} tensor grad_fn.
Arguments tensor {R} d.
Arguments grad_fn {R} d.

(** What a constructor hands to [Tensor.__init__] as [depends_on]: a list
    of edges or, from [_slice], one bare [Dependency] tuple. *)
Inductive DependsOn (R : Type) :=
| dep_list (l : list (Dependency R))
| dep_tuple (d : Dependency R).
Arguments dep_list {R} l.
Arguments dep_tuple {R} d.

(** [class Tensor]; [grad] is itself a [Tensor] when present. *)
#[warnings="-register-all"]
Inductive Tensor (R : Type) := mkTensor {
  data : ndarray R;
  requires_grad : bool;
  depends_on : DependsOn R;
  shape : list nat;
  grad : option (Tensor R)
}.
Arguments mkTensor {R} data requires_grad depends_on shape grad.
Arguments data {R} t.
Arguments requires_grad {R} t.
Arguments depends_on {R} t.
Arguments shape {R} t.
Arguments grad {R} t.

Abbreviation store R := (list (Tensor R)).

(** Computations that read and update the store and may raise: the store
    reached when an exception is raised is kept. *)
Definition M (R A : Type) : Type := store R -> store R * result A.

Definition ret {R A} (a : A) : M R A := fun st => (st, Ok a).

Definition raise {R A} (e : exn) : M R A := fun st => (st, Raise e).

Definition bind {R A B} (m : M R A) (f : A -> M R B) : M R B :=
  fun st =>
    match m st with
    | (st', Ok a) => f a st'
    | (st', Raise e) => (st', Raise e)
    end.

Definition lift {R A} (r : result A) : M R A := fun st => (st, r).

Declare Scope py_scope.
Delimit Scope py_scope with py.
Notation "'let*' x ':=' m 'in' k" := (bind m (fun x => k))
  (at level 10, x name, m at level 100, k at level 200) : py_scope.
Notation "m ';;' k" := (bind m (fun _ => k))
  (at level 100, k at level 200, right associativity) : py_scope.

(** [for x in l: body x] *)
Fixpoint for_each {R A} (l : list A) (body : A -> M R unit) : M R unit :=
  match l with
  | [] => ret tt
  | x :: l' => bind (body x) (fun _ => for_each l' body)
  end.

(** [Array_like = Union[float, list, np.ndarray]]; a list is a flat list
    of numbers. *)
Inductive Array_like (R : Type) :=
| al_float (x : R)
| al_list (l : list R)
| al_ndarray (a : ndarray R).
Arguments al_float {R} x.
Arguments al_list {R} l.
Arguments al_ndarray {R} a.

(** [Tensorable = Union['Tensor', float, np.ndarray]] *)
Inductive Tensorable (R : Type) :=
| tb_tensor (t : ref)
| tb_float (x : R)
| tb_ndarray (a : ndarray R).
Arguments tb_tensor {R} t.
Arguments tb_float {R} x.
Arguments tb_ndarray {R} a.

Section Autograd.
Context {R : Type} `{!Scalar R}.
Local Open Scope py_scope.

(** Reading the object behind a reference. *)
Definition deref (r : ref) : M R (Tensor R) :=
  fun st =>
    match st !! r with
    | Some t => (st, Ok t)
    | None => (st, Raise OutOfModel)
    end.

Definition assign (r : ref) (t : Tensor R) : M R unit :=
  fun st => (<[r := t]> st, Ok tt).

(** A new object: its reference is the next free index. *)
Definition alloc (t : Tensor R) : M R ref :=
  fun st => (st ++ [t], Ok (length st)).

(** *** [class Tensor] *)

(** [depends_on or []] *)
Definition or_empty (deps : option (DependsOn R)) : DependsOn R :=
  match deps with
  | None | Some (dep_list []) => dep_list []
  | Some d => d
  end.

(** The [data] setter: [self._data = value; self.grad = None]. *)
Definition set_data (value : ndarray R) (self : Tensor R) : Tensor R :=
  mkTensor value (requires_grad self) (depends_on self) (shape self) None.

Definition set_grad (g : option (Tensor R)) (self : Tensor R) : Tensor R :=
  mkTensor (data self) (requires_grad self) (depends_on self) (shape self) g.

(** [Tensor(d)]: [__init__] with the defaults [requires_grad=False] and
    [depends_on=None], for which [zero_grad] is not called. *)
Definition plain_tensor (d : ndarray R) : Tensor R :=
  mkTensor d false (dep_list []) (nd_shape d) None.

(** [zero_grad]: [self.grad = Tensor(np.zeros_like(self.data))] *)
Definition zero_grad_obj (self : Tensor R) : Tensor R :=
  set_grad (Some (plain_tensor (zeros_like (data self)))) self.

(** The object that [__init__] leaves behind. *)
Definition Tensor_init (d : ndarray R) (rg : bool)
           (deps : option (DependsOn R)) : Tensor R :=
  let self := mkTensor d rg (or_empty deps) (nd_shape d) None in
  if rg then zero_grad_obj self else self.

(** [Tensor(d, rg, deps)] *)
Definition Tensor_new (d : ndarray R) (rg : bool)
           (deps : option (DependsOn R)) : M R ref :=
  alloc (Tensor_init d rg deps).

Definition zero_grad (self : ref) : M R unit :=
  let* t := deref self in
  assign self (zero_grad_obj t).

(** [self.data = value] from outside the class *)
Definition assign_data (self : ref) (value : ndarray R) : M R unit :=
  let* t := deref self in
  assign self (set_data value t).

Definition ensure_array (array_like : Array_like R) : ndarray R :=
  match array_like with
  | al_ndarray a => a
  | al_float x => np_array x
  | al_list l => np_array_list l
  end.

(** A tensor is returned as it is; anything else becomes a new tensor
    with the defaults [requires_grad=False], [depends_on=None]. *)
Definition ensure_tensor (tensorable : Tensorable R) : M R ref :=
  match tensorable with
  | tb_tensor t => ret t
  | tb_float x => Tensor_new (ensure_array (al_float x)) false None
  | tb_ndarray a => Tensor_new (ensure_array (al_ndarray a)) false None
  end.

(** The in-place combinators [+=], [*=], [-=]:
    [self.data = self.data op ensure_tensor(other).data; return self]. *)
Definition inplace (op : ndarray R -> ndarray R -> result (ndarray R))
           (self : ref) (other : Tensorable R) : M R ref :=
  let* t := deref self in
  let* other := ensure_tensor other in
  let* o := deref other in
  let* v := lift (op (data t) (data o)) in
  assign self (set_data v t);;
  ret self.

Definition __iadd__ := inplace nd_add.
Definition __imul__ := inplace nd_mul.
Definition __isub__ :=
  inplace (fun a b => nd_add a (nd_neg b)).

(** *** The local gradient functions *)

(** [for _ in range(n): grad = grad.sum(axis=0)] *)
Fixpoint sum_added_dims (n : nat) (g : ndarray R) : result (ndarray R) :=
  match n with
  | 0 => Ok g
  | S n' => rbind (nd_sum_axis 0 false g) (sum_added_dims n')
  end.

(** [for i, dim in enumerate(shape): if dim == 1:
       grad = grad.sum(axis=i, keepdims=True)], counting from [i]. *)
Fixpoint sum_broadcast_dims (i : nat) (s : list nat) (g : ndarray R)
  : result (ndarray R) :=
  match s with
  | [] => Ok g
  | dim :: s' =>
      if dim =? 1
      then rbind (nd_sum_axis i true g) (sum_broadcast_dims (S i) s')
      else sum_broadcast_dims (S i) s' g
  end.

(** The two loops shared by the closures of [_add] and [_multiply], for
    the operand [t]: [ndim_added = grad.ndim - t.data.ndim] (a negative
    count runs the first loop zero times) and the dimensions of
    [t.shape]. *)
Definition reduce_grad (t : Tensor R) (g : ndarray R)
  : result (ndarray R) :=
  let ndim_added :=
    Z.to_nat (Z.of_nat (nd_ndim g) - Z.of_nat (nd_ndim (data t))) in
  rbind (sum_added_dims ndim_added g) (sum_broadcast_dims 0 (shape t)).

Definition lookup_tensor (st : store R) (r : ref) : result (Tensor R) :=
  match st !! r with
  | Some t => Ok t
  | None => Raise OutOfModel
  end.

(** Calling a closure on the upstream gradient [g], in store [st]. *)
Definition call_grad_fn (st : store R) (f : GradFn R) (g : ndarray R)
  : result (ndarray R) :=
  match f with
  | tensor_sum_grad_fn t =>
      rbind (lookup_tensor st t) (fun tt => nd_mul g (ones_like (data tt)))
  | add_grad_fn1 t1 =>
      rbind (lookup_tensor st t1) (fun tt => reduce_grad tt g)
  | add_grad_fn2 t2 =>
      rbind (lookup_tensor st t2) (fun tt => reduce_grad tt g)
  | multiply_grad_fn1 t1 t2 =>
      rbind (lookup_tensor st t2) (fun b =>
      rbind (nd_mul g (data b)) (fun g' =>
      rbind (lookup_tensor st t1) (fun a => reduce_grad a g')))
  | multiply_grad_fn1' t1 t2 =>
      rbind (lookup_tensor st t1) (fun a =>
      rbind (nd_mul g (data a)) (fun g' =>
      rbind (lookup_tensor st t2) (fun b => reduce_grad b g')))
  | neg_grad_fn => Ok (nd_neg g)
  | matmul_grad_fn1 t2 =>
      rbind (lookup_tensor st t2) (fun b =>
      rbind (nd_T (data b)) (fun bT => nd_matmul g bT))
  | matmul_grad_fn2 t1 =>
      rbind (lookup_tensor st t1) (fun a =>
      rbind (nd_T (data a)) (fun aT => nd_matmul aT g))
  | slice_grad_fn d idxs =>
      let bigger_grad := zeros_like d in
      nd_setitem bigger_grad idxs g
  end.

(** *** The operation constructors *)

Definition _tensor_sum (t : ref) : M R ref :=
  let* tt := deref t in
  let d := nd_sum (data tt) in
  let rg := requires_grad tt in
  let deps :=
    if rg then dep_list [mkDependency t (tensor_sum_grad_fn t)]
    else dep_list [] in
  Tensor_new d rg (Some deps).

(** [depends_on.append(Dependency(t, f))] under [if t.requires_grad:] *)
Definition append_if (c : bool) (d : Dependency R)
           (l : list (Dependency R)) : list (Dependency R) :=
  if c then l ++ [d] else l.

Definition _add (t1 t2 : ref) : M R ref :=
  let* a := deref t1 in
  let* b := deref t2 in
  let* d := lift (nd_add (data a) (data b)) in
  let rg := requires_grad a || requires_grad b in
  let deps := [] in
  let deps :=
    append_if (requires_grad a) (mkDependency t1 (add_grad_fn1 t1)) deps in
  let deps :=
    append_if (requires_grad b) (mkDependency t2 (add_grad_fn2 t2)) deps in
  Tensor_new d rg (Some (dep_list deps)).

Definition _multiply (t1 t2 : ref) : M R ref :=
  let* a := deref t1 in
  let* b := deref t2 in
  let* d := lift (nd_mul (data a) (data b)) in
  let rg := requires_grad a || requires_grad b in
  let deps := [] in
  let deps :=
    append_if (requires_grad a)
              (mkDependency t1 (multiply_grad_fn1 t1 t2)) deps in
  let deps :=
    append_if (requires_grad b)
              (mkDependency t2 (multiply_grad_fn1' t1 t2)) deps in
  Tensor_new d rg (Some (dep_list deps)).

Definition _neg (t : ref) : M R ref :=
  let* tt := deref t in
  let d := nd_neg (data tt) in
  let rg := requires_grad tt in
  let deps :=
    if requires_grad tt then dep_list [mkDependency t neg_grad_fn]
    else dep_list [] in
  Tensor_new d rg (Some deps).

(** [t1 + -t2] *)
Definition _sub (t1 t2 : ref) : M R ref :=
  let* n := _neg t2 in
  _add t1 n.

Definition _matmul (t1 t2 : ref) : M R ref :=
  let* a := deref t1 in
  let* b := deref t2 in
  let* d := lift (nd_matmul (data a) (data b)) in
  let rg := requires_grad a || requires_grad b in
  let deps := [] in
  let deps :=
    append_if (requires_grad a) (mkDependency t1 (matmul_grad_fn1 t2)) deps in
  let deps :=
    append_if (requires_grad b) (mkDependency t2 (matmul_grad_fn2 t1)) deps in
  Tensor_new d rg (Some (dep_list deps)).

(** [depends_on = Dependency(t, grad_fn)]: no list around the edge. *)
Definition _slice (t : ref) (idxs : index) : M R ref :=
  let* tt := deref t in
  let* d := lift (nd_getitem (data tt) idxs) in
  let rg := requires_grad tt in
  let deps :=
    if rg then dep_tuple (mkDependency t (slice_grad_fn d idxs))
    else dep_list [] in
  Tensor_new d rg (Some deps).

(** *** The operator methods of [Tensor] *)

Definition __add__ (self : ref) (other : Tensorable R) : M R ref :=
  let* other := ensure_tensor other in _add self other.

Definition __radd__ (self : ref) (other : Tensorable R) : M R ref :=
  let* other := ensure_tensor other in _add other self.

Definition __neg__ (self : ref) : M R ref := _neg self.

Definition __mul__ (self : ref) (other : Tensorable R) : M R ref :=
  let* other := ensure_tensor other in _multiply self other.

Definition __rmul__ (self : ref) (other : Tensorable R) : M R ref :=
  let* other := ensure_tensor other in _multiply other self.

(** [other] is passed on as it is: it has to be a tensor. *)
Definition __matmul__ (self other : ref) : M R ref := _matmul self other.

Definition __sub__ (self : ref) (other : Tensorable R) : M R ref :=
  let* other := ensure_tensor other in _sub self other.

Definition __rsub__ (self : ref) (other : Tensorable R) : M R ref :=
  let* other := ensure_tensor other in _sub other self.

Definition __getitem__ (self : ref) (idxs : index) : M R ref :=
  _slice self idxs.

(** [Tensor.sum] *)
Definition sum (self : ref) : M R ref := _tensor_sum self.

(** The operations as calls, with the tensors they are applied to. *)
Inductive op_call :=
| call_sum (t : ref)
| call_add (t1 t2 : ref)
| call_multiply (t1 t2 : ref)
| call_neg (t : ref)
| call_sub (t1 t2 : ref)
| call_matmul (t1 t2 : ref)
| call_slice (t : ref) (idxs : index).

Definition run_op (c : op_call) : M R ref :=
  match c with
  | call_sum t => _tensor_sum t
  | call_add t1 t2 => _add t1 t2
  | call_multiply t1 t2 => _multiply t1 t2
  | call_neg t => _neg t
  | call_sub t1 t2 => _sub t1 t2
  | call_matmul t1 t2 => _matmul t1 t2
  | call_slice t idxs => _slice t idxs
  end.

Definition operands (c : op_call) : list ref :=
  match c with
  | call_sum t | call_neg t | call_slice t _ => [t]
  | call_add t1 t2 | call_multiply t1 t2 | call_sub t1 t2
  | call_matmul t1 t2 => [t1; t2]
  end.

(** *** [Tensor.backward]

    The seed [grad] is a [Tensor] that is read only through [.data]; it
    is given by that array, [None] when the argument is omitted.  [fuel]
    bounds the depth of the recursion, as the interpreter does. *)

(** [self.grad.data = self.grad.data + grad.data] *)
Definition accumulate (self : ref) (g : ndarray R) : M R unit :=
  let* t := deref self in
  match grad t with
  | None => raise (AttributeError NoneType "data")
  | Some gt =>
      let* v := lift (nd_add (data gt) g) in
      assign self (set_grad (Some (set_data v gt)) t)
  end.

Fixpoint backward (fuel : nat) (self : ref) (grad_arg : option (ndarray R))
  : M R unit :=
  match fuel with
  | 0 => raise RecursionError
  | S fuel' =>
      let* t := deref self in
      if negb (requires_grad t) then raise AssertionError
      else
        let* g :=
          match grad_arg with
          | Some g => ret g
          | None =>
              match shape t with
              | [] => ret (np_array rone)
              | _ :: _ => raise RuntimeError
              end
          end in
        accumulate self g;;
        let* t := deref self in
        match depends_on t with
        | dep_list l =>
            for_each l (fun dependency =>
              fun st =>
                bind (lift (call_grad_fn st (grad_fn dependency) g))
                     (fun backward_grad =>
                        backward fuel' (tensor dependency)
                                 (Some backward_grad))
                     st)
        | dep_tuple d =>
            (* the loop variable is the tuple's first field, a Tensor *)
            raise (AttributeError TensorClass "grad_fn")
        end
  end.

End Autograd.

(** The body of the loop of [backward] over the edges, for the seed [g]. *)
Abbreviation visit fuel g :=
  (fun dependency st' =>
     bind (lift (call_grad_fn st' (grad_fn dependency) g))
          (fun backward_grad =>
             backward fuel (tensor dependency) (Some backward_grad))
          st').


(** ** Properties of graphs: what the constructors and [backward] maintain *)

Section Invariants.
Context {R : Type} `{!Scalar R}.

(** The source of an edge is differentiable and has its accumulator. *)
Definition edge_ok (st : store R) (d : Dependency R) : Prop :=
  exists t, st !! tensor d = Some t /\ requires_grad t = true /\
            grad t <> None.

Definition tensor_ok (st : store R) (t : Tensor R) : Prop :=
  (requires_grad t = true -> grad t <> None) /\
  match depends_on t with
  | dep_list l => Forall (edge_ok st) l
  | dep_tuple _ => True
  end.

Definition store_ok (st : store R) : Prop := Forall (tensor_ok st) st.

(** Stores reached from the empty one by creating leaves, applying the
    operation constructors, and calling [zero_grad] and [backward]
    (whatever the outcome of the latter): no data is ever replaced. *)
Inductive built : store R -> Prop :=
| built_empty : built []
| built_leaf st d rg :
    built st -> built (fst (Tensor_new d rg None st))
| built_sum st t st' r :
    built st -> _tensor_sum t st = (st', Ok r) -> built st'
| built_add st t1 t2 st' r :
    built st -> _add t1 t2 st = (st', Ok r) -> built st'
| built_multiply st t1 t2 st' r :
    built st -> _multiply t1 t2 st = (st', Ok r) -> built st'
| built_neg st t st' r :
    built st -> _neg t st = (st', Ok r) -> built st'
| built_sub st t1 t2 st' r :
    built st -> _sub t1 t2 st = (st', Ok r) -> built st'
| built_matmul st t1 t2 st' r :
    built st -> _matmul t1 t2 st = (st', Ok r) -> built st'
| built_slice st t idxs st' r :
    built st -> _slice t idxs st = (st', Ok r) -> built st'
| built_zero_grad st t st' :
    built st -> zero_grad t st = (st', Ok tt) -> built st'
| built_backward st fuel t g st' out :
    built st -> backward fuel t g st = (st', out) -> built st'.

(** The exceptions of the array substrate. *)
Definition array_exn (e : exn) : Prop :=
  e = ValueError \/ e = IndexError \/ e = AxisError \/ e = OutOfModel.

(** [grad] holds a freshly zero-initialised accumulator for [data]. *)
Definition zero_initialized (t : Tensor R) : Prop :=
  exists g, grad t = Some g /\
    nd_shape (data g) = nd_shape (data t) /\
    shape g = nd_shape (data t) /\
    nd_elems (data g) = replicate (size_of (nd_shape (data t))) rzero /\
    nd_wf (data g).

(** [st'] has the objects of [st], each with the same differentiability
    flag and edges, and with an accumulator wherever [st] has one. *)
Definition frame (st st' : store R) : Prop :=
  length st' = length st /\
  forall r t, st !! r = Some t ->
    exists t', st' !! r = Some t' /\
               requires_grad t' = requires_grad t /\
               depends_on t' = depends_on t /\
               (grad t <> None -> grad t' <> None).

(** The outcome is neither the failure of the [requires_grad] check nor
    that of the accumulation on an absent [grad]. *)
Definition propagation_safe (out : result unit) : Prop :=
  out <> Raise NotDifferentiable /\
  out <> Raise (AttributeError NoneType "data").

(** [st'] differs from [st] at most in the content of accumulators that
    [st] already has. *)
Definition only_grads_change (st st' : store R) : Prop :=
  length st' = length st /\
  forall r t, st !! r = Some t ->
    exists t', st' !! r = Some t' /\
               data t' = data t /\
               requires_grad t' = requires_grad t /\
               depends_on t' = depends_on t /\
               shape t' = shape t /\
               (grad t = None <-> grad t' = None).

(** The tensors that the edges of [t] lead to, whichever way the edges
    are stored. *)
Definition edge_targets (t : Tensor R) : list ref :=
  match depends_on t with
  | dep_list l => map tensor l
  | dep_tuple d => [tensor d]
  end.

(** Every edge leads to a tensor created earlier. *)
Definition edges_back (st : store R) : Prop :=
  forall r t, st !! r = Some t -> Forall (fun r' => r' < r) (edge_targets t).

(** [up] is what broadcasting [target] against some other shape gives. *)
Definition broadcast_expansion (target up : list nat) : Prop :=
  exists other, broadcast_shapes target other = Some up.

End Invariants.

(** ** Concrete graphs over integer arrays *)

Module Examples.

Definition run {A} (m : M Z A) (st : store Z) : store Z := fst (m st).

(** [n = Tensor(7.)]: not differentiable *)
Definition st_plain : store Z :=
  run (Tensor_new (np_array 7%Z) false None) [].

(** [x = Tensor([1., 2., 3.], requires_grad=True)] *)
Definition st_vec : store Z :=
  run (Tensor_new (np_array_list [1; 2; 3]%Z) true None) [].

(** [x = Tensor([1., 2., 3.], requires_grad=True); s = x[0:2]] *)
Definition slice_0_2 : index := idx_slice (Some 0%Z) (Some 2%Z).
Definition st_slice : store Z := run (_slice 0 slice_0_2) st_vec.

(** [x = Tensor(2., requires_grad=True)] *)
Definition st_scalar : store Z :=
  run (Tensor_new (np_array 2%Z) true None) [].

(** [x = Tensor(2., requires_grad=True); x.data = np.array(3.)] *)
Definition st_replaced : store Z :=
  run (assign_data 0 (np_array 3%Z)) st_scalar.

(** [a = Tensor(3., requires_grad=True); b = Tensor(2.); c = a * b] *)
Definition st_ab : store Z :=
  run (Tensor_new (np_array 2%Z) false None)
      (run (Tensor_new (np_array 3%Z) true None) []).
Definition st_mul : store Z := run (_multiply 0 1) st_ab.

(** ... followed by [b.data = np.array(5.)] *)
Definition st_mul_replaced : store Z :=
  run (assign_data 1 (np_array 5%Z)) st_mul.

(** [A = Tensor([[1., 2., 3.], [4., 5., 6.]], requires_grad=True);
    B = Tensor([[1., 0.], [0., 1.], [1., 1.]], requires_grad=True)] *)
Definition A_data : ndarray Z := mk_ndarray [2; 3] [1; 2; 3; 4; 5; 6]%Z.
Definition B_data : ndarray Z := mk_ndarray [3; 2] [1; 0; 0; 1; 1; 1]%Z.
Definition st_AB : store Z :=
  run (Tensor_new B_data true None) (run (Tensor_new A_data true None) []).

(** [np.ones((2, 2))] *)
Definition ones_2_2 : ndarray Z := mk_ndarray [2; 2] [1; 1; 1; 1]%Z.

(** The data of [r.grad], when there is one. *)
Definition grad_data (st : store Z) (r : ref) : option (ndarray Z) :=
  match st !! r with
  | Some t => option_map data (grad t)
  | None => None
  end.

End Examples.

(** ** Theorems *)

Section Store.
Context {R : Type} `{!Scalar R}.

Lemma deref_Some (st : store R) r t :
  st !! r = Some t -> deref r st = (st, Ok t).
Proof. intros E. unfold deref. now rewrite E. Qed.

Lemma lookup_tensor_Some (st : store R) r t :
  st !! r = Some t -> lookup_tensor st r = Ok t.
Proof. intros E. unfold lookup_tensor. now rewrite E. Qed.

Lemma lookup_alloc_new (st : store R) (t : Tensor R) :
  (st ++ [t]) !! length st = Some t.
Proof. rewrite lookup_app_r by lia. now rewrite Nat.sub_diag. Qed.

Lemma lookup_alloc_old (st : store R) (t u : Tensor R) r :
  st !! r = Some u -> (st ++ [t]) !! r = Some u.
Proof. intros E. now apply lookup_app_l_Some. Qed.

Lemma size_of_replicate_zeros (a : ndarray R) : nd_wf (zeros_like a).
Proof. unfold nd_wf, zeros_like. simpl. apply length_replicate. Qed.

Lemma zero_grad_obj_initialized (t : Tensor R) :
  zero_initialized (zero_grad_obj t) /\ data (zero_grad_obj t) = data t.
Proof.
  split; [|reflexivity].
  exists (plain_tensor (zeros_like (data t))). simpl.
  repeat split. apply length_replicate.
Qed.

(** C8. [backward] on a tensor whose [requires_grad] is false fails with
    NotDifferentiable (the [assert] on entry), and the store, hence the
    gradient state of every tensor, is the one before the call. *)
Theorem backward_not_differentiable
        (fuel : nat) (st : store R) (self : ref) (t : Tensor R)
        (grad_arg : option (ndarray R)) :
  st !! self = Some t ->
  requires_grad t = false ->
  backward (S fuel) self grad_arg st = (st, Raise NotDifferentiable).
Proof.
  intros Hl Hr. simpl. unfold bind.
  rewrite (deref_Some _ _ _ Hl), Hr. reflexivity.
Qed.

(** C9. The zero-initialiser, run by the constructor when
    [requires_grad] is true and by [zero_grad], leaves in [grad] an
    all-zero array whose shape is the shape of the tensor's current
    data, whatever the [shape] attribute recorded at construction. *)
Theorem zero_initializer_matches_data
        (st : store R) (self : ref) (t : Tensor R) :
  st !! self = Some t ->
  (exists t', zero_grad self st = (<[self := t']> st, Ok tt) /\
              <[self := t']> st !! self = Some t' /\
              data t' = data t /\ zero_initialized t') /\
  (forall d deps, exists r t',
      Tensor_new d true deps st = (st ++ [t'], Ok r) /\
      (st ++ [t']) !! r = Some t' /\
      data t' = d /\ zero_initialized t').
Proof.
  intros Hl. split.
  - exists (zero_grad_obj t). unfold zero_grad, bind.
    rewrite (deref_Some _ _ _ Hl). unfold assign.
    destruct (zero_grad_obj_initialized t) as [Hz Hd].
    repeat split; try assumption.
    apply list_lookup_insert_eq. eapply lookup_lt_Some; eauto.
  - intros d deps. exists (length st), (Tensor_init d true deps).
    unfold Tensor_new, alloc. repeat split.
    + apply lookup_alloc_new.
    + apply (zero_grad_obj_initialized
               (mkTensor d true (or_empty deps) (nd_shape d) None)).
Qed.

End Store.

Lemma backward_not_differentiable_witness :
  backward 1 0 (Some (np_array 1%Z)) Examples.st_plain
  = (Examples.st_plain, Raise NotDifferentiable).
Proof.
  apply (backward_not_differentiable 0 Examples.st_plain 0
           (Tensor_init (np_array 7%Z) false None)); reflexivity.
Defined.

Lemma zero_initializer_matches_data_witness :
  exists t', zero_grad 0 Examples.st_replaced
             = (<[0 := t']> Examples.st_replaced, Ok tt) /\
             <[0 := t']> Examples.st_replaced !! 0 = Some t' /\
             data t' = np_array 3%Z /\ zero_initialized t'.
Proof.
  exact (proj1 (zero_initializer_matches_data Examples.st_replaced 0
                  (set_data (np_array 3%Z)
                            (Tensor_init (np_array 2%Z) true None))
                  eq_refl)).
Defined.

Section Slice.
Context {R : Type} `{!Scalar R}.

Lemma nd_setitem_shape (a v r : ndarray R) (ix : index) :
  nd_setitem a ix v = Ok r -> nd_shape r = nd_shape a.
Proof.
  unfold nd_setitem. destruct (nd_shape a) as [|n rest] eqn:Es; [discriminate|].
  destruct (positions n ix) as [ps|e]; simpl; [|discriminate].
  destruct (broadcastable_to _ _); [|discriminate].
  intros [= <-]. reflexivity.
Qed.

(** What the closure of [_slice] returns has the shape of the captured
    [data], the selected sub-array. *)
Lemma slice_grad_fn_shape (st : store R) (d g r : ndarray R) (idxs : index) :
  call_grad_fn st (slice_grad_fn d idxs) g = Ok r -> nd_shape r = nd_shape d.
Proof. simpl. intros E. now apply nd_setitem_shape in E. Qed.

(** [_slice] on a differentiable tensor stores a bare edge. *)
Lemma _slice_differentiable (st : store R) (t : ref) (tt : Tensor R)
      (idxs : index) (d : ndarray R) :
  st !! t = Some tt -> requires_grad tt = true ->
  nd_getitem (data tt) idxs = Ok d ->
  _slice t idxs st
  = (st ++ [Tensor_init d true
              (Some (dep_tuple (mkDependency t (slice_grad_fn d idxs))))],
     Ok (length st)).
Proof.
  intros Hl Hr Hd. unfold _slice, bind, lift.
  rewrite (deref_Some _ _ _ Hl), Hd, Hr. reflexivity.
Qed.

(** Iterating over the bare edge fails once the seed is accumulated. *)
Lemma backward_dep_tuple (fuel : nat) (st : store R) (self : ref)
      (t gt : Tensor R) (d : Dependency R) (g v : ndarray R) :
  st !! self = Some t -> requires_grad t = true ->
  depends_on t = dep_tuple d -> grad t = Some gt ->
  nd_add (data gt) g = Ok v ->
  backward (S fuel) self (Some g) st
  = (<[self := set_grad (Some (set_data v gt)) t]> st,
     Raise (AttributeError TensorClass "grad_fn")).
Proof.
  intros Hl Hr Hd Hg Hv. simpl. unfold bind, accumulate, bind, lift, ret.
  rewrite (deref_Some _ _ _ Hl), Hr. simpl.
  rewrite (deref_Some _ _ _ Hl), Hg, Hv. unfold assign.
  assert (L : <[self := set_grad (Some (set_data v gt)) t]> st !! self
              = Some (set_grad (Some (set_data v gt)) t)).
  { apply list_lookup_insert_eq. eapply lookup_lt_Some; eauto. }
  rewrite (deref_Some _ _ _ L). simpl. rewrite Hd. reflexivity.
Qed.

End Slice.

(** C1. On [x = Tensor([1., 2., 3.], requires_grad=True)] and [s = x[0:2]]
    the local gradient function of the slice allocates its zero array from
    the selected sub-array: for the upstream gradient [[10., 20.]] it
    returns an array of shape (2,), not one of the shape (3,) of [x.data]
    with the unselected position left at zero; on [x[1:3]] the assignment
    into that too small array fails. *)
Theorem slice_grad_fn_uses_selected_shape :
  let x_data := np_array_list [1; 2; 3]%Z in
  let upstream := np_array_list [10; 20]%Z in
  (exists x s, Examples.st_slice !! 0 = Some x /\
               Examples.st_slice !! 1 = Some s /\
               data x = x_data /\
               depends_on s
               = dep_tuple (mkDependency 0
                   (slice_grad_fn (np_array_list [1; 2]%Z)
                                  Examples.slice_0_2))) /\
  call_grad_fn Examples.st_slice
    (slice_grad_fn (np_array_list [1; 2]%Z) Examples.slice_0_2) upstream
  = Ok (mk_ndarray [2] [10; 20]%Z) /\
  [2] <> nd_shape x_data /\
  nd_getitem x_data (idx_slice (Some 1%Z) (Some 3%Z))
  = Ok (np_array_list [2; 3]%Z) /\
  call_grad_fn Examples.st_slice
    (slice_grad_fn (np_array_list [2; 3]%Z)
                   (idx_slice (Some 1%Z) (Some 3%Z))) upstream
  = Raise ValueError.
Proof.
  cbv zeta. split; [|split; [|split; [|split]]].
  - eexists _, _. repeat split; reflexivity.
  - reflexivity.
  - discriminate.
  - reflexivity.
  - reflexivity.
Qed.

(** C3. On [x = Tensor([1., 2., 3.], requires_grad=True)] the tensor
    returned by [x[0:2]] holds in [depends_on] one bare [Dependency], not a
    list of edges, and [backward] through it fails with an
    [AttributeError] when it iterates over the field, after the seed has
    been accumulated. *)
Theorem slice_depends_on_is_a_bare_edge :
  (exists s d, Examples.st_slice !! 1 = Some s /\
               depends_on s = dep_tuple d /\
               forall l, depends_on s <> dep_list l) /\
  snd (backward 5 1 (Some (np_array_list [10; 20]%Z)) Examples.st_slice)
  = Raise (AttributeError TensorClass "grad_fn") /\
  Examples.grad_data
    (fst (backward 5 1 (Some (np_array_list [10; 20]%Z)) Examples.st_slice)) 0
  = Some (mk_ndarray [3] [0; 0; 0]%Z).
Proof.
  split; [|split].
  - eexists _, _. repeat split; try reflexivity. intros l. discriminate.
  - reflexivity.
  - reflexivity.
Qed.

Section Shapes.

Lemma broadcast_dim_refl d : broadcast_dim d d = Some d.
Proof. unfold broadcast_dim. now rewrite Nat.eqb_refl. Qed.

Lemma broadcast_dim_one_r d : broadcast_dim d 1 = Some d.
Proof.
  unfold broadcast_dim. destruct (d =? 1) eqn:E; [|reflexivity].
  apply Nat.eqb_eq in E. now subst.
Qed.

Lemma broadcast_dims_refl s : broadcast_dims s s = Some s.
Proof.
  induction s as [|d s IH]; simpl; [reflexivity|].
  now rewrite broadcast_dim_refl, IH.
Qed.

Lemma broadcast_dims_ones_r s :
  broadcast_dims s (replicate (length s) 1) = Some s.
Proof.
  induction s as [|d s IH]; simpl; [reflexivity|].
  now rewrite broadcast_dim_one_r, IH.
Qed.

Lemma pad_shape_self s : pad_shape (length s) s = s.
Proof. unfold pad_shape. now rewrite Nat.sub_diag. Qed.

Lemma broadcast_shapes_refl s : broadcast_shapes s s = Some s.
Proof.
  unfold broadcast_shapes. rewrite Nat.max_id, pad_shape_self.
  apply broadcast_dims_refl.
Qed.

Lemma broadcast_shapes_nil_r s : broadcast_shapes s [] = Some s.
Proof.
  unfold broadcast_shapes. simpl. rewrite Nat.max_0_r, pad_shape_self.
  unfold pad_shape. simpl. rewrite Nat.sub_0_r, app_nil_r.
  apply broadcast_dims_ones_r.
Qed.

End Shapes.

Section Seed.
Context {R : Type} `{!Scalar R}.

Lemma or_empty_list (l : list (Dependency R)) :
  or_empty (Some (dep_list l)) = dep_list l.
Proof. now destruct l. Qed.

Lemma lookup_assign_same (st : store R) r t u :
  st !! r = Some t -> <[r := u]> st !! r = Some u.
Proof. intros E. apply list_lookup_insert_eq. eapply lookup_lt_Some; eauto. Qed.

(** The accumulation step on a tensor whose accumulator is present. *)
Lemma accumulate_Some (st : store R) self t gt g v :
  st !! self = Some t -> grad t = Some gt -> nd_add (data gt) g = Ok v ->
  accumulate self g st
  = (<[self := set_grad (Some (set_data v gt)) t]> st, Ok tt).
Proof.
  intros Hl Hg Hv. unfold accumulate, bind, lift.
  now rewrite (deref_Some _ _ _ Hl), Hg, Hv.
Qed.

Lemma accumulate_None (st : store R) self t g :
  st !! self = Some t -> grad t = None ->
  accumulate self g st = (st, Raise (AttributeError NoneType "data")).
Proof.
  intros Hl Hg. unfold accumulate, bind.
  now rewrite (deref_Some _ _ _ Hl), Hg.
Qed.

(** [backward] on a differentiable leaf: the seed is added to the
    accumulator and nothing else happens. *)
Lemma backward_leaf (fuel : nat) (st : store R) self t gt g v :
  st !! self = Some t -> requires_grad t = true ->
  depends_on t = dep_list [] -> grad t = Some gt ->
  nd_add (data gt) g = Ok v ->
  backward (S fuel) self (Some g) st
  = (<[self := set_grad (Some (set_data v gt)) t]> st, Ok tt).
Proof.
  intros Hl Hr Hd Hg Hv. simpl. unfold bind, ret.
  rewrite (deref_Some _ _ _ Hl), Hr. simpl.
  rewrite (accumulate_Some _ _ _ _ _ _ Hl Hg Hv).
  rewrite (deref_Some _ _ _ (lookup_assign_same _ _ _ _ Hl)).
  simpl. now rewrite Hd.
Qed.

Lemma nd_add_scalar_r (a : ndarray R) (x : R) :
  exists v, nd_add a (np_array x) = Ok v /\ nd_shape v = nd_shape a.
Proof.
  unfold nd_add, nd_binop. simpl. rewrite broadcast_shapes_nil_r.
  eexists. split; reflexivity.
Qed.

(** C5 (amended). On a differentiable tensor, [backward] without a seed
    is [backward] with the unit seed 1 when the [shape] attribute is
    empty, and fails with MissingGradient, leaving the store as it was,
    when it is not; on a scalar leaf whose accumulator is present the
    call succeeds and adds 1 to the accumulator. *)
Theorem backward_implicit_seed
        (fuel : nat) (st : store R) (self : ref) (t : Tensor R) :
  st !! self = Some t ->
  requires_grad t = true ->
  (shape t = [] ->
   backward fuel self None st = backward fuel self (Some (np_array rone)) st)
  /\
  (shape t <> [] ->
   backward (S fuel) self None st = (st, Raise MissingGradient))
  /\
  (shape t = [] -> depends_on t = dep_list [] ->
   forall gt, grad t = Some gt ->
   exists v, nd_add (data gt) (np_array rone) = Ok v /\
             backward (S fuel) self None st
             = (<[self := set_grad (Some (set_data v gt)) t]> st, Ok tt)).
Proof.
  intros Hl Hr. split; [|split].
  - intros Hs. destruct fuel as [|fuel]; [reflexivity|].
    simpl. unfold bind.
    rewrite (deref_Some _ _ _ Hl), Hr. simpl. rewrite Hs. reflexivity.
  - intros Hs. simpl. unfold bind.
    rewrite (deref_Some _ _ _ Hl), Hr. simpl.
    destruct (shape t); [congruence|]. reflexivity.
  - intros Hs Hd gt Hg.
    destruct (nd_add_scalar_r (data gt) rone) as [v [Hv _]].
    exists v. split; [exact Hv|].
    assert (E : backward (S fuel) self None st
                = backward (S fuel) self (Some (np_array rone)) st).
    { simpl. unfold bind.
      rewrite (deref_Some _ _ _ Hl), Hr. simpl. rewrite Hs. reflexivity. }
    rewrite E. now apply backward_leaf.
Qed.

(** C2 (amended). The edges that [_multiply] attaches compute their
    contribution from the operands as they are in the store in which the
    closure is called: the contribution to [t1] is the reduction of
    upstream * [t2.data] read at that time, and symmetrically; it is the
    product with the data seen at construction exactly when that data has
    not been replaced in between. *)
Theorem multiply_grad_reads_data_when_called
        (st : store R) (t1 t2 : ref) (a b : Tensor R) (d : ndarray R) :
  st !! t1 = Some a ->
  st !! t2 = Some b ->
  nd_mul (data a) (data b) = Ok d ->
  exists y ty,
    _multiply t1 t2 st = (st ++ [ty], Ok y) /\
    (st ++ [ty]) !! y = Some ty /\
    depends_on ty
    = dep_list
        (append_if (requires_grad b)
           (mkDependency t2 (multiply_grad_fn1' t1 t2))
           (append_if (requires_grad a)
              (mkDependency t1 (multiply_grad_fn1 t1 t2)) [])) /\
    forall (st2 : store R) (a2 b2 : Tensor R) (g : ndarray R),
      st2 !! t1 = Some a2 -> st2 !! t2 = Some b2 ->
      call_grad_fn st2 (multiply_grad_fn1 t1 t2) g
      = rbind (nd_mul g (data b2)) (reduce_grad a2) /\
      call_grad_fn st2 (multiply_grad_fn1' t1 t2) g
      = rbind (nd_mul g (data a2)) (reduce_grad b2) /\
      (data b2 = data b ->
       call_grad_fn st2 (multiply_grad_fn1 t1 t2) g
       = rbind (nd_mul g (data b)) (reduce_grad a2)) /\
      (data a2 = data a ->
       call_grad_fn st2 (multiply_grad_fn1' t1 t2) g
       = rbind (nd_mul g (data a)) (reduce_grad b2)).
Proof.
  intros H1 H2 Hd.
  eexists (length st), _. split; [|split; [|split]].
  - unfold _multiply, bind, lift.
    rewrite (deref_Some _ _ _ H1), (deref_Some _ _ _ H2), Hd.
    unfold Tensor_new, alloc. reflexivity.
  - apply lookup_alloc_new.
  - unfold Tensor_init. rewrite or_empty_list.
    now destruct (requires_grad a || requires_grad b).
  - intros st2 a2 b2 g L1 L2.
    assert (E1 : call_grad_fn st2 (multiply_grad_fn1 t1 t2) g
                 = rbind (nd_mul g (data b2)) (reduce_grad a2)).
    { simpl. rewrite (lookup_tensor_Some _ _ _ L2). simpl.
      destruct (nd_mul g (data b2)); simpl; [|reflexivity].
      now rewrite (lookup_tensor_Some _ _ _ L1). }
    assert (E2 : call_grad_fn st2 (multiply_grad_fn1' t1 t2) g
                 = rbind (nd_mul g (data a2)) (reduce_grad b2)).
    { simpl. rewrite (lookup_tensor_Some _ _ _ L1). simpl.
      destruct (nd_mul g (data a2)); simpl; [|reflexivity].
      now rewrite (lookup_tensor_Some _ _ _ L2). }
    repeat split; try assumption.
    + intros <-. exact E1.
    + intros <-. exact E2.
Qed.

End Seed.

(** C5, as stated, fails: after [x = Tensor(2., requires_grad=True)] and
    [x.data = np.array(3.)] the tensor is differentiable and of empty
    shape, yet [x.backward()] raises an [AttributeError], the setter
    having cleared the accumulator. *)
Lemma backward_no_seed_cleared_grad :
  (exists x, Examples.st_replaced !! 0 = Some x /\
             requires_grad x = true /\ shape x = [] /\
             nd_shape (data x) = []) /\
  backward 5 0 None Examples.st_replaced
  = (Examples.st_replaced, Raise (AttributeError NoneType "data")).
Proof. split; [eexists; repeat split|]; reflexivity. Qed.

Lemma backward_implicit_seed_witness :
  backward 5 0 None Examples.st_scalar
  = backward 5 0 (Some (np_array 1%Z)) Examples.st_scalar /\
  exists v, nd_add (np_array 0%Z) (np_array 1%Z) = Ok v /\
            Examples.grad_data (fst (backward 5 0 None Examples.st_scalar)) 0
            = Some v.
Proof.
  destruct (backward_implicit_seed 4 Examples.st_scalar 0
              (Tensor_init (np_array 2%Z) true None) eq_refl eq_refl)
    as [H1 [_ H3]].
  split; [exact (H1 eq_refl)|].
  destruct (H3 eq_refl eq_refl _ eq_refl) as [v [Hv Hb]].
  exists v. split; [exact Hv|]. rewrite Hb.
  revert Hv. vm_compute. now intros [= <-].
Defined.

(** C2, as stated, fails: with [a = Tensor(3., requires_grad=True)],
    [b = Tensor(2.)] and [c = a * b], replacing [b.data] by 5 before
    [c.backward()] changes what is propagated to [a] from 2 to 5. *)
Lemma multiply_grad_changes_with_replaced_data :
  call_grad_fn Examples.st_mul (multiply_grad_fn1 0 1) (np_array 1%Z)
  = Ok (np_array 2%Z) /\
  call_grad_fn Examples.st_mul_replaced (multiply_grad_fn1 0 1)
               (np_array 1%Z)
  = Ok (np_array 5%Z) /\
  Examples.grad_data (fst (backward 5 2 None Examples.st_mul)) 0
  = Some (np_array 2%Z) /\
  Examples.grad_data (fst (backward 5 2 None Examples.st_mul_replaced)) 0
  = Some (np_array 5%Z) /\
  call_grad_fn Examples.st_mul_replaced (multiply_grad_fn1 0 1)
               (np_array 1%Z)
  <> call_grad_fn Examples.st_mul (multiply_grad_fn1 0 1) (np_array 1%Z).
Proof. repeat split; try reflexivity. discriminate. Qed.

Lemma multiply_grad_reads_data_when_called_witness :
  exists y ty,
    _multiply 0 1 Examples.st_ab = (Examples.st_ab ++ [ty], Ok y) /\
    depends_on ty = dep_list [mkDependency 0 (multiply_grad_fn1 0 1)] /\
    call_grad_fn Examples.st_mul_replaced (multiply_grad_fn1 0 1)
                 (np_array 1%Z)
    = rbind (nd_mul (np_array 1%Z) (np_array 5%Z))
            (reduce_grad (Tensor_init (np_array 3%Z) true None)).
Proof.
  assert (Hd : nd_mul (data (Tensor_init (np_array 3%Z) true None))
                      (data (Tensor_init (np_array 2%Z) false None))
               = Ok (np_array 6%Z)) by (vm_compute; reflexivity).
  destruct (multiply_grad_reads_data_when_called Examples.st_ab 0 1
              (Tensor_init (np_array 3%Z) true None)
              (Tensor_init (np_array 2%Z) false None)
              (np_array 6%Z) eq_refl eq_refl Hd)
    as [y [ty [E [_ [D F]]]]].
  exists y, ty. split; [exact E|]. split; [exact D|].
  exact (proj1 (F Examples.st_mul_replaced
                  (Tensor_init (np_array 3%Z) true None)
                  (set_data (np_array 5%Z)
                            (Tensor_init (np_array 2%Z) false None))
                  (np_array 1%Z) eq_refl eq_refl)).
Defined.

Section ArrayFacts.
Context {R : Type} `{!Scalar R}.

Lemma size_of_app (s t : list nat) : size_of (s ++ t) = size_of s * size_of t.
Proof.
  induction s as [|d s IH]; simpl; [lia|]. rewrite IH. lia.
Qed.

Lemma length_chunks (n m : nat) (l : list R) : length (chunks n m l) = n.
Proof.
  revert l. induction n as [|n IH]; intros l; simpl; [reflexivity|].
  now rewrite IH.
Qed.

Lemma chunks_lengths (n m : nat) (l : list R) :
  n * m <= length l -> Forall (fun c => length c = m) (chunks n m l).
Proof.
  revert l. induction n as [|n IH]; intros l Hl; simpl; constructor.
  - rewrite length_take. simpl in Hl. lia.
  - apply IH. rewrite length_drop. simpl in Hl. lia.
Qed.

Lemma concat_chunks (n m : nat) (l : list R) :
  length l = n * m -> concat (chunks n m l) = l.
Proof.
  revert l. induction n as [|n IH]; intros l Hl; simpl.
  - destruct l; [reflexivity|discriminate].
  - rewrite IH; [apply take_drop|]. rewrite length_drop. simpl in Hl. lia.
Qed.

Lemma length_concat_const (k : nat) (ls : list (list R)) :
  Forall (fun c => length c = k) ls -> length (concat ls) = length ls * k.
Proof.
  induction 1 as [|c ls Hc _ IH]; simpl; [reflexivity|].
  rewrite length_app, IH, Hc. reflexivity.
Qed.

Lemma length_fold_zip_with (f : R -> R -> R) (m : nat)
      (rows : list (list R)) (r : list R) :
  length r = m -> Forall (fun c => length c = m) rows ->
  length (fold_left (zip_with f) rows r) = m.
Proof.
  intros Hr Hrows. revert r Hr.
  induction Hrows as [|c rows Hc _ IH]; intros r Hr; simpl; [exact Hr|].
  apply IH. rewrite length_zip_with. lia.
Qed.

Lemma length_sum_rows (m : nat) (rows : list (list R)) :
  Forall (fun c => length c = m) rows -> length (sum_rows m rows) = m.
Proof.
  intros H. destruct H as [|c rows Hc Hrows]; simpl.
  - apply length_replicate.
  - now apply length_fold_zip_with.
Qed.

Lemma drop_S_middle (pre post : list nat) (d : nat) :
  drop (S (length pre)) (pre ++ d :: post) = post.
Proof. induction pre as [|x pre IH]; simpl; [reflexivity|exact IH]. Qed.

(** Summing along the axis that follows the dimensions [pre]. *)
Lemma nd_sum_axis_shape (pre post : list nat) (d : nat) (kd : bool)
      (g : ndarray R) :
  nd_shape g = pre ++ d :: post ->
  exists r, nd_sum_axis (length pre) kd g = Ok r /\
            nd_shape r = pre ++ (if kd then [1] else []) ++ post /\
            (nd_wf g -> nd_wf r).
Proof.
  intros Hs. unfold nd_sum_axis.
  rewrite Hs, list_lookup_middle by reflexivity.
  rewrite take_app_length.
  rewrite drop_S_middle.
  eexists. split; [reflexivity|]. split; [reflexivity|].
  unfold nd_wf. simpl. rewrite Hs, !size_of_app. simpl. intros Hw.
  rewrite (length_concat_const (size_of post)).
  - rewrite length_map, length_chunks.
    destruct kd; rewrite ?size_of_app; simpl; lia.
  - apply Forall_map.
    assert (Hb : Forall (fun c => length c = d * size_of post)
                   (chunks (size_of pre) (d * size_of post) (nd_elems g))).
    { apply chunks_lengths. lia. }
    eapply Forall_impl; [exact Hb|]. intros blk Hblk. simpl in *.
    apply length_sum_rows, chunks_lengths. lia.
Qed.

Lemma sum_added_dims_shape (pre u : list nat) (g : ndarray R) :
  nd_shape g = pre ++ u ->
  exists r, sum_added_dims (length pre) g = Ok r /\
            nd_shape r = u /\ (nd_wf g -> nd_wf r).
Proof.
  revert g. induction pre as [|d pre IH]; intros g Hs; simpl.
  - exists g. auto.
  - destruct (nd_sum_axis_shape [] (pre ++ u) d false g Hs)
      as [r1 [E1 [S1 W1]]].
    simpl in E1. rewrite E1. simpl.
    destruct (IH r1 S1) as [r [E [S W]]].
    exists r. auto.
Qed.

Lemma sum_broadcast_dims_shape (t : list nat) :
  forall (pre u : list nat) (g : ndarray R),
    nd_shape g = pre ++ u ->
    Forall2 (fun td ud => td = ud \/ td = 1) t u ->
    exists r, sum_broadcast_dims (length pre) t g = Ok r /\
              nd_shape r = pre ++ t /\ (nd_wf g -> nd_wf r).
Proof.
  induction t as [|dim t IH]; intros pre u g Hs Hf.
  - apply Forall2_nil_inv_l in Hf. subst u. exists g. simpl. auto.
  - apply Forall2_cons_inv_l in Hf as [ud [u' [Hd [Hf ->]]]].
    simpl. destruct (dim =? 1) eqn:E1.
    + apply Nat.eqb_eq in E1. subst dim.
      destruct (nd_sum_axis_shape pre u' ud true g Hs) as [r1 [E [S1 W1]]].
      rewrite E. simpl.
      destruct (IH (pre ++ [1]) u' r1) as [r [Er [Sr Wr]]].
      { rewrite S1. now rewrite <- app_assoc. }
      { exact Hf. }
      rewrite length_app, Nat.add_1_r in Er.
      exists r. split; [exact Er|]. split; [|auto].
      rewrite Sr. now rewrite <- app_assoc.
    + apply Nat.eqb_neq in E1.
      destruct Hd as [->|Hd]; [|contradiction].
      destruct (IH (pre ++ [ud]) u' g) as [r [Er [Sr Wr]]].
      { rewrite Hs. now rewrite <- app_assoc. }
      { exact Hf. }
      rewrite length_app, Nat.add_1_r in Er.
      exists r. split; [exact Er|]. split; [|auto].
      rewrite Sr. now rewrite <- app_assoc.
Qed.

End ArrayFacts.

Section BroadcastFacts.

Lemma broadcast_dim_inv d e x :
  broadcast_dim d e = Some x -> d = x \/ d = 1.
Proof.
  unfold broadcast_dim.
  destruct (d =? e) eqn:E1; [intros [= <-]; now left|].
  destruct (d =? 1) eqn:E2; [apply Nat.eqb_eq in E2; now right|].
  destruct (e =? 1); [intros [= <-]; now left|discriminate].
Qed.

Lemma broadcast_dims_inv s1 :
  forall s2 r, broadcast_dims s1 s2 = Some r ->
               Forall2 (fun d x => d = x \/ d = 1) s1 r.
Proof.
  induction s1 as [|d s1 IH]; intros [|e s2] r; simpl; try discriminate.
  - intros [= <-]. constructor.
  - destruct (broadcast_dim d e) as [x|] eqn:Ed; [|discriminate].
    destruct (broadcast_dims s1 s2) as [r'|] eqn:Er; [|discriminate].
    intros [= <-]. constructor; [eapply broadcast_dim_inv; eauto|eauto].
Qed.

(** A broadcast expansion of [t]: some added leading dimensions, then
    the dimensions of [t] with those of size 1 possibly enlarged. *)
Lemma broadcast_expansion_inv (t up : list nat) :
  broadcast_expansion t up ->
  exists pre u, up = pre ++ u /\
                length up = length pre + length t /\
                Forall2 (fun td ud => td = ud \/ td = 1) t u.
Proof.
  intros [other H]. unfold broadcast_shapes in H.
  apply broadcast_dims_inv in H. unfold pad_shape in H at 1.
  apply Forall2_app_inv_l in H as [pre [u [H1 [H2 ->]]]].
  exists pre, u. split; [reflexivity|]. split; [|exact H2].
  rewrite length_app. apply Forall2_length in H2. lia.
Qed.

End BroadcastFacts.

Section Reduction.
Context {R : Type} `{!Scalar R}.

(** C6. For an upstream gradient whose shape is a broadcast expansion of
    the operand's shape, the reduction used by the closures of [_add] and
    [_multiply] returns an array of exactly the operand's shape, with as
    many elements as that shape announces. *)
Theorem reduce_grad_restores_shape (t : Tensor R) (g : ndarray R) :
  nd_ndim (data t) = length (shape t) ->
  broadcast_expansion (shape t) (nd_shape g) ->
  (exists r, reduce_grad t g = Ok r /\
             nd_shape r = shape t /\ (nd_wf g -> nd_wf r)) /\
  (forall (st : store R) (r1 : ref),
      st !! r1 = Some t ->
      call_grad_fn st (add_grad_fn1 r1) g = reduce_grad t g /\
      call_grad_fn st (add_grad_fn2 r1) g = reduce_grad t g).
Proof.
  intros Hn Hexp. split.
  - destruct (broadcast_expansion_inv _ _ Hexp) as [pre [u [Hs [Hl Hf]]]].
    unfold reduce_grad.
    replace (Z.to_nat (Z.of_nat (nd_ndim g) - Z.of_nat (nd_ndim (data t))))
      with (length pre) by (unfold nd_ndim at 1; lia).
    destruct (sum_added_dims_shape pre u g Hs) as [r1 [E1 [S1 W1]]].
    rewrite E1. simpl.
    destruct (sum_broadcast_dims_shape (shape t) [] u r1 S1 Hf)
      as [r [E [S W]]].
    exists r. split; [exact E|]. split; [exact S|auto].
  - intros st r1 Hl. simpl. now rewrite (lookup_tensor_Some _ _ _ Hl).
Qed.

End Reduction.

Lemma reduce_grad_restores_shape_witness :
  exists r,
    reduce_grad (Tensor_init (mk_ndarray [1; 3] [1; 2; 3]%Z) true None)
                (mk_ndarray [2; 3] [1; 2; 3; 4; 5; 6]%Z) = Ok r /\
    nd_shape r = [1; 3] /\
    (nd_wf (mk_ndarray [2; 3] [1; 2; 3; 4; 5; 6]%Z) -> nd_wf r).
Proof.
  exact (proj1 (reduce_grad_restores_shape
                  (Tensor_init (mk_ndarray [1; 3] [1; 2; 3]%Z) true None)
                  (mk_ndarray [2; 3] [1; 2; 3; 4; 5; 6]%Z)
                  eq_refl (ex_intro _ [2; 3] eq_refl))).
Defined.

Example reduce_grad_sums_the_added_axis :
  reduce_grad (Tensor_init (mk_ndarray [1; 3] [1; 2; 3]%Z) true None)
              (mk_ndarray [2; 3] [1; 2; 3; 4; 5; 6]%Z)
  = Ok (mk_ndarray [1; 3] [5; 7; 9]%Z).
Proof. reflexivity. Qed.

Section Accumulation.
Context {R : Type} `{!Scalar R}.

Lemma map_id_Forall {A} (f : A -> A) (l : list A) :
  Forall (fun x => f x = x) l -> map f l = l.
Proof. induction 1 as [|x l Hx _ IH]; simpl; [reflexivity|]. now rewrite Hx, IH. Qed.

(** Summing, with [keepdims], along an axis of size 1 changes nothing. *)
Lemma nd_sum_axis_keepdims_one (pre post : list nat) (g : ndarray R) :
  nd_shape g = pre ++ 1 :: post -> nd_wf g ->
  nd_sum_axis (length pre) true g = Ok g.
Proof.
  intros Hs Hw. unfold nd_sum_axis.
  rewrite Hs, list_lookup_middle by reflexivity.
  rewrite take_app_length, drop_S_middle.
  destruct g as [gs ge]. simpl in *. subst gs. f_equal. f_equal.
  unfold nd_wf in Hw. simpl in Hw. rewrite size_of_app in Hw. simpl in Hw.
  rewrite map_id_Forall.
  - apply concat_chunks. lia.
  - assert (Hb : Forall (fun c => length c = 1 * size_of post)
                   (chunks (size_of pre) (1 * size_of post) ge)).
    { apply chunks_lengths. lia. }
    eapply Forall_impl; [exact Hb|]. intros blk Hblk. simpl in *.
    apply take_ge. lia.
Qed.

Lemma sum_broadcast_dims_same (t : list nat) :
  forall (pre : list nat) (g : ndarray R),
    nd_shape g = pre ++ t -> nd_wf g ->
    sum_broadcast_dims (length pre) t g = Ok g.
Proof.
  induction t as [|dim t IH]; intros pre g Hs Hw; simpl; [reflexivity|].
  assert (Hs' : nd_shape g = (pre ++ [dim]) ++ t)
    by (now rewrite <- app_assoc).
  specialize (IH (pre ++ [dim]) g Hs' Hw).
  rewrite length_app, Nat.add_1_r in IH.
  destruct (dim =? 1) eqn:E1; [|exact IH].
  apply Nat.eqb_eq in E1. subst dim.
  rewrite (nd_sum_axis_keepdims_one pre t g Hs Hw). exact IH.
Qed.

(** Without expansion the reduction returns the upstream gradient. *)
Lemma reduce_grad_same_shape (t : Tensor R) (g : ndarray R) :
  nd_ndim (data t) = length (shape t) ->
  nd_shape g = shape t -> nd_wf g ->
  reduce_grad t g = Ok g.
Proof.
  intros Hn Hs Hw. unfold reduce_grad.
  replace (Z.to_nat (Z.of_nat (nd_ndim g) - Z.of_nat (nd_ndim (data t))))
    with 0 by (unfold nd_ndim at 1; rewrite Hs; lia).
  simpl. now apply (sum_broadcast_dims_same (shape t) []).
Qed.

Lemma nd_binop_same_shape (f : R -> R -> R) (a b : ndarray R) :
  nd_shape a = nd_shape b ->
  exists v, nd_binop f a b = Ok v /\ nd_shape v = nd_shape a.
Proof.
  intros E. unfold nd_binop. rewrite <- E, broadcast_shapes_refl.
  eexists. split; reflexivity.
Qed.

(** One step of [backward] on a tensor with a list of edges: the seed is
    accumulated, then the edges are visited in order. *)
Lemma backward_dep_list (fuel : nat) (st : store R) self t gt g v l :
  st !! self = Some t -> requires_grad t = true ->
  depends_on t = dep_list l -> grad t = Some gt ->
  nd_add (data gt) g = Ok v ->
  backward (S fuel) self (Some g) st
  = for_each l (visit fuel g)
      (<[self := set_grad (Some (set_data v gt)) t]> st).
Proof.
  intros Hl Hr Hd Hg Hv. simpl. unfold bind, ret.
  rewrite (deref_Some _ _ _ Hl), Hr. simpl.
  rewrite (accumulate_Some _ _ _ _ _ _ Hl Hg Hv).
  rewrite (deref_Some _ _ _ (lookup_assign_same _ _ _ _ Hl)).
  simpl. now rewrite Hd.
Qed.

(** Visiting an edge whose closure and recursive call succeed. *)
Lemma for_each_edge_ok (fuel : nat) (g bg : ndarray R) (r : ref)
      (f : GradFn R) (l : list (Dependency R)) (st st' : store R) :
  call_grad_fn st f g = Ok bg ->
  backward fuel r (Some bg) st = (st', Ok tt) ->
  for_each (mkDependency r f :: l) (visit fuel g) st
  = for_each l (visit fuel g) st'.
Proof.
  intros Hc Hb. cbn [for_each]. unfold bind at 1. unfold bind at 1, lift.
  cbn [grad_fn tensor]. rewrite Hc, Hb. reflexivity.
Qed.

Lemma call_add_grad_fn1 (st : store R) r t g :
  st !! r = Some t -> call_grad_fn st (add_grad_fn1 r) g = reduce_grad t g.
Proof. intros L. simpl. now rewrite (lookup_tensor_Some _ _ _ L). Qed.

Lemma call_add_grad_fn2 (st : store R) r t g :
  st !! r = Some t -> call_grad_fn st (add_grad_fn2 r) g = reduce_grad t g.
Proof. intros L. simpl. now rewrite (lookup_tensor_Some _ _ _ L). Qed.

End Accumulation.

Section AccumulationTheorem.
Context {R : Type} `{!Scalar R}.

(** C4. [backward] adds the incoming gradient to what [grad] already
    holds.  For a differentiable leaf [x] with accumulator [gx] and
    [y = x + x], [y.backward(seed)] visits the two edges of [y], each of
    which contributes [seed], and leaves [x.grad] equal to
    [(gx + seed) + seed]: both contributions, on top of the previous
    content. *)
Theorem backward_accumulates_both_edges
        (fuel : nat) (st : store R) (x : ref) (tx gx : Tensor R)
        (seed : ndarray R) :
  st !! x = Some tx ->
  requires_grad tx = true ->
  depends_on tx = dep_list [] ->
  grad tx = Some gx ->
  shape tx = nd_shape (data tx) ->
  nd_shape (data gx) = nd_shape (data tx) ->
  nd_shape seed = nd_shape (data tx) ->
  nd_wf seed ->
  exists ty g1 g2 st2 tx',
    _add x x st = (st ++ [ty], Ok (length st)) /\
    depends_on ty
    = dep_list [mkDependency x (add_grad_fn1 x);
                mkDependency x (add_grad_fn2 x)] /\
    call_grad_fn (st ++ [ty]) (add_grad_fn1 x) seed = Ok seed /\
    call_grad_fn (st ++ [ty]) (add_grad_fn2 x) seed = Ok seed /\
    nd_add (data gx) seed = Ok g1 /\
    nd_add g1 seed = Ok g2 /\
    backward (S (S fuel)) (length st) (Some seed) (st ++ [ty])
    = (st2, Ok tt) /\
    st2 !! x = Some tx' /\
    option_map data (grad tx') = Some g2.
Proof.
  intros Hx Hrg Hleaf Hg Hshape Hgs Hseed Hw.
  assert (Hlt : x < length st) by (eapply lookup_lt_Some; eauto).
  destruct (nd_binop_same_shape radd (data tx) (data tx) eq_refl)
    as [d [Hd Hds]].
  destruct (nd_binop_same_shape radd (data gx) seed) as [g1 [Hg1 Hg1s]];
    [congruence|].
  destruct (nd_binop_same_shape radd g1 seed) as [g2 [Hg2 Hg2s]];
    [congruence|].
  destruct (nd_binop_same_shape radd (zeros_like d) seed) as [vy [Hvy _]];
    [simpl; congruence|].
  assert (Hred : forall g', reduce_grad (set_grad g' tx) seed = Ok seed).
  { intros g'. apply reduce_grad_same_shape; simpl.
    - unfold nd_ndim. now rewrite Hshape.
    - congruence.
    - exact Hw. }
  set (e1 := mkDependency x (add_grad_fn1 (R:=R) x)).
  set (e2 := mkDependency x (add_grad_fn2 (R:=R) x)).
  set (ty := Tensor_init d true (Some (dep_list [e1; e2]))).
  set (ty' := set_grad (Some (set_data vy (plain_tensor (zeros_like d)))) ty).
  set (tx1 := set_grad (Some (set_data g1 gx)) tx).
  set (tx2 := set_grad (Some (set_data g2 (set_data g1 gx))) tx1).
  set (st1 := <[length st := ty']> (st ++ [ty])).
  assert (L0 : (st ++ [ty]) !! x = Some tx) by now apply lookup_alloc_old.
  assert (L1 : st1 !! x = Some tx).
  { unfold st1. rewrite list_lookup_insert_ne by lia. exact L0. }
  assert (L2 : <[x := tx1]> st1 !! x = Some tx1)
    by (eapply lookup_assign_same; eauto).
  exists ty, g1, g2, (<[x := tx2]> (<[x := tx1]> st1)), tx2.
  split; [|split; [|split; [|split; [|split; [|split; [|split; [|split]]]]]]].
  - unfold _add, bind, lift.
    rewrite (deref_Some _ _ _ Hx). cbn beta iota.
    rewrite (deref_Some _ _ _ Hx). cbn beta iota.
    unfold nd_add. rewrite Hd, Hrg. reflexivity.
  - reflexivity.
  - rewrite (call_add_grad_fn1 _ _ _ _ L0). exact (Hred (grad tx)).
  - rewrite (call_add_grad_fn2 _ _ _ _ L0). exact (Hred (grad tx)).
  - exact Hg1.
  - exact Hg2.
  - rewrite (backward_dep_list (S fuel) (st ++ [ty]) (length st) ty
               (plain_tensor (zeros_like d)) seed vy [e1; e2]
               (lookup_alloc_new st ty) eq_refl eq_refl eq_refl Hvy).
    change (<[length st := _]> (st ++ [ty])) with st1.
    unfold e1, e2.
    rewrite (for_each_edge_ok (S fuel) seed seed x _ _ st1 (<[x := tx1]> st1)).
    + rewrite (for_each_edge_ok (S fuel) seed seed x _ _ (<[x := tx1]> st1)
                 (<[x := tx2]> (<[x := tx1]> st1))).
      * reflexivity.
      * rewrite (call_add_grad_fn2 _ _ _ _ L2).
        exact (Hred (Some (set_data g1 gx))).
      * exact (backward_leaf fuel (<[x := tx1]> st1) x tx1 (set_data g1 gx)
                 seed g2 L2 Hrg Hleaf eq_refl Hg2).
    + rewrite (call_add_grad_fn1 _ _ _ _ L1). exact (Hred (grad tx)).
    + exact (backward_leaf fuel st1 x tx gx seed g1 L1 Hrg Hleaf Hg Hg1).
  - eapply lookup_assign_same; eauto.
  - reflexivity.
Qed.

End AccumulationTheorem.

Lemma backward_accumulates_both_edges_witness :
  exists st2,
    backward 2 1 (Some (np_array 1%Z))
             (Examples.run (_add 0 0) Examples.st_scalar)
    = (st2, Ok tt) /\
    Examples.grad_data st2 0 = Some (np_array 2%Z).
Proof.
  destruct (backward_accumulates_both_edges 0 Examples.st_scalar 0
              (Tensor_init (np_array 2%Z) true None)
              (plain_tensor (zeros_like (np_array 2%Z)))
              (np_array 1%Z)
              eq_refl eq_refl eq_refl eq_refl eq_refl eq_refl eq_refl eq_refl)
    as (ty & g1 & g2 & st2 & tx' & Hadd & _ & _ & _ & H1 & H2 & Hb & Hl & Hd).
  exists st2. split.
  - unfold Examples.run. rewrite Hadd. exact Hb.
  - unfold Examples.grad_data. rewrite Hl, Hd.
    vm_compute in H1. injection H1 as <-.
    vm_compute in H2. injection H2 as <-. reflexivity.
Defined.

Section Matmul.
Context {R : Type} `{!Scalar R}.

Lemma expand_same (s : list nat) :
  forall l : list R, length l = size_of s -> expand s s l = l.
Proof.
  induction s as [|d s IH]; intros l Hl; simpl; [reflexivity|].
  rewrite Nat.eqb_refl. simpl in Hl. rewrite map_id_Forall.
  - apply concat_chunks. lia.
  - eapply Forall_impl; [apply chunks_lengths; lia|].
    intros c Hc. simpl in Hc. now apply IH.
Qed.

Lemma broadcast_to_same (a : ndarray R) :
  nd_wf a -> broadcast_to a (nd_shape a) = nd_elems a.
Proof.
  intros Hw. unfold broadcast_to. rewrite pad_shape_self.
  now apply expand_same.
Qed.

Lemma zip_with_zeros_l (l : list R) :
  (forall x : R, radd rzero x = x) ->
  zip_with radd (replicate (length l) rzero) l = l.
Proof.
  intros H0. induction l as [|x l IH]; simpl; [reflexivity|].
  now rewrite H0, IH.
Qed.

(** Adding to a zero-initialised accumulator of the same shape. *)
Lemma nd_add_zeros_l (a x : ndarray R) :
  (forall y : R, radd rzero y = y) ->
  nd_shape a = nd_shape x -> nd_wf x ->
  nd_add (zeros_like a) x = Ok x.
Proof.
  intros H0 Hs Hw.
  assert (zeros_like a = zeros_like x) as ->
    by (unfold zeros_like; now rewrite Hs).
  pose proof (broadcast_to_same (zeros_like x) (size_of_replicate_zeros x))
    as Hz.
  change (nd_shape (zeros_like x)) with (nd_shape x) in Hz.
  unfold nd_add, nd_binop.
  change (nd_shape (zeros_like x)) with (nd_shape x).
  rewrite broadcast_shapes_refl, Hz, (broadcast_to_same x Hw).
  unfold zeros_like, nd_wf in *. cbn [nd_elems].
  rewrite <- Hw, (zip_with_zeros_l _ H0). now destruct x.
Qed.

Lemma length_flat_map_const {A} (f : A -> list R) (c : nat) (l : list A) :
  (forall i, length (f i) = c) -> length (flat_map f l) = length l * c.
Proof.
  intros Hf. induction l as [|i l IH]; simpl; [reflexivity|].
  now rewrite length_app, Hf, IH.
Qed.

Lemma length_matmul2 (n k m : nat) (x y : list R) :
  length (matmul2 n k m x y) = n * m.
Proof.
  unfold matmul2. rewrite (length_flat_map_const _ m).
  - now rewrite length_seq.
  - intros i. now rewrite length_map, length_seq.
Qed.

Lemma nd_matmul_2d (x y : ndarray R) (n k m : nat) :
  nd_shape x = [n; k] -> nd_shape y = [k; m] ->
  exists z, nd_matmul x y = Ok z /\ nd_shape z = [n; m] /\ nd_wf z.
Proof.
  intros Hx Hy. unfold nd_matmul. rewrite Hx, Hy, Nat.eqb_refl.
  eexists. split; [reflexivity|]. split; [reflexivity|].
  unfold nd_wf. simpl. rewrite length_matmul2. lia.
Qed.

Lemma nd_T_2d (x : ndarray R) (n m : nat) :
  nd_shape x = [n; m] ->
  exists z, nd_T x = Ok z /\ nd_shape z = [m; n].
Proof.
  intros Hx. unfold nd_T. rewrite Hx. eexists. split; reflexivity.
Qed.

Lemma call_matmul_grad_fn1 (st : store R) r t g :
  st !! r = Some t ->
  call_grad_fn st (matmul_grad_fn1 r) g
  = rbind (nd_T (data t)) (fun bT => nd_matmul g bT).
Proof. intros L. simpl. now rewrite (lookup_tensor_Some _ _ _ L). Qed.

Lemma call_matmul_grad_fn2 (st : store R) r t g :
  st !! r = Some t ->
  call_grad_fn st (matmul_grad_fn2 r) g
  = rbind (nd_T (data t)) (fun aT => nd_matmul aT g).
Proof. intros L. simpl. now rewrite (lookup_tensor_Some _ _ _ L). Qed.

(** C7. For distinct differentiable leaves [A] of shape (n,k) and [B] of
    shape (k,m) with zero accumulators, [C = A @ B] and a seed [G] of
    shape (n,m), [C.backward(G)] returns normally and leaves
    [A.grad = G @ B.T], of shape (n,k), and [B.grad = A.T @ G], of shape
    (k,m): the products are accumulated as they are, without reduction.
    Adding to zero is assumed to change nothing. *)
Theorem matmul_backward
        (fuel : nat) (st : store R) (a b : ref) (ta tb ga gb : Tensor R)
        (n k m : nat) (G : ndarray R) :
  (forall x : R, radd rzero x = x) ->
  a <> b ->
  st !! a = Some ta -> st !! b = Some tb ->
  requires_grad ta = true -> requires_grad tb = true ->
  depends_on ta = dep_list [] -> depends_on tb = dep_list [] ->
  grad ta = Some ga -> data ga = zeros_like (data ta) ->
  grad tb = Some gb -> data gb = zeros_like (data tb) ->
  nd_shape (data ta) = [n; k] -> nd_shape (data tb) = [k; m] ->
  nd_shape G = [n; m] ->
  exists tc bT aT dA dB st2 ta' tb',
    _matmul a b st = (st ++ [tc], Ok (length st)) /\
    nd_T (data tb) = Ok bT /\ nd_matmul G bT = Ok dA /\
    nd_shape dA = [n; k] /\
    nd_T (data ta) = Ok aT /\ nd_matmul aT G = Ok dB /\
    nd_shape dB = [k; m] /\
    backward (S (S fuel)) (length st) (Some G) (st ++ [tc]) = (st2, Ok tt) /\
    st2 !! a = Some ta' /\ option_map data (grad ta') = Some dA /\
    st2 !! b = Some tb' /\ option_map data (grad tb') = Some dB.
Proof.
  intros H0 Hab La Lb Hra Hrb Hda Hdb Hga Hgaz Hgb Hgbz Hsa Hsb HsG.
  assert (Hlta : a < length st) by (eapply lookup_lt_Some; eauto).
  assert (Hltb : b < length st) by (eapply lookup_lt_Some; eauto).
  destruct (nd_matmul_2d (data ta) (data tb) n k m Hsa Hsb)
    as [d [Hd [Hds _]]].
  destruct (nd_T_2d (data tb) k m Hsb) as [bT [HbT HbTs]].
  destruct (nd_T_2d (data ta) n k Hsa) as [aT [HaT HaTs]].
  destruct (nd_matmul_2d G bT n m k HsG HbTs) as [dA [HdA [HdAs HdAw]]].
  destruct (nd_matmul_2d aT G k n m HaTs HsG) as [dB [HdB [HdBs HdBw]]].
  destruct (nd_binop_same_shape radd (zeros_like d) G) as [vy [Hvy _]];
    [simpl; congruence|].
  assert (HaddA : nd_add (data ga) dA = Ok dA).
  { rewrite Hgaz. apply nd_add_zeros_l; [exact H0|congruence|exact HdAw]. }
  assert (HaddB : nd_add (data gb) dB = Ok dB).
  { rewrite Hgbz. apply nd_add_zeros_l; [exact H0|congruence|exact HdBw]. }
  set (tc := Tensor_init d true
               (Some (dep_list [mkDependency a (matmul_grad_fn1 b);
                                mkDependency b (matmul_grad_fn2 a)]))).
  set (tc' := set_grad (Some (set_data vy (plain_tensor (zeros_like d)))) tc).
  set (ta1 := set_grad (Some (set_data dA ga)) ta).
  set (tb1 := set_grad (Some (set_data dB gb)) tb).
  set (st1 := <[length st := tc']> (st ++ [tc])).
  assert (L1a : st1 !! a = Some ta).
  { unfold st1. rewrite list_lookup_insert_ne by lia.
    now apply lookup_alloc_old. }
  assert (L1b : st1 !! b = Some tb).
  { unfold st1. rewrite list_lookup_insert_ne by lia.
    now apply lookup_alloc_old. }
  assert (L2a : <[a := ta1]> st1 !! a = Some ta1)
    by (eapply lookup_assign_same; eauto).
  assert (L2b : <[a := ta1]> st1 !! b = Some tb)
    by (now rewrite list_lookup_insert_ne).
  exists tc, bT, aT, dA, dB, (<[b := tb1]> (<[a := ta1]> st1)), ta1, tb1.
  repeat match goal with |- _ /\ _ => split end;
    try assumption; try reflexivity.
  - unfold _matmul, bind, lift.
    rewrite (deref_Some _ _ _ La). cbn beta iota.
    rewrite (deref_Some _ _ _ Lb). cbn beta iota.
    rewrite Hd, Hra, Hrb. reflexivity.
  - rewrite (backward_dep_list (S fuel) (st ++ [tc]) (length st) tc
               (plain_tensor (zeros_like d)) G vy _
               (lookup_alloc_new st tc) eq_refl eq_refl eq_refl Hvy).
    change (<[length st := _]> (st ++ [tc])) with st1.
    rewrite (for_each_edge_ok (S fuel) G dA a _ _ st1 (<[a := ta1]> st1)).
    + rewrite (for_each_edge_ok (S fuel) G dB b _ _ (<[a := ta1]> st1)
                 (<[b := tb1]> (<[a := ta1]> st1))).
      * reflexivity.
      * rewrite (call_matmul_grad_fn2 _ _ _ _ L2a). simpl.
        rewrite HaT. exact HdB.
      * exact (backward_leaf fuel (<[a := ta1]> st1) b tb gb dB dB
                 L2b Hrb Hdb Hgb HaddB).
    + rewrite (call_matmul_grad_fn1 _ _ _ _ L1b). rewrite HbT. exact HdA.
    + exact (backward_leaf fuel st1 a ta ga dA dA L1a Hra Hda Hga HaddA).
  - rewrite list_lookup_insert_ne by congruence. exact L2a.
  - eapply lookup_assign_same; eauto.
Qed.

End Matmul.

Lemma matmul_backward_witness :
  exists st2,
    backward 2 2 (Some Examples.ones_2_2)
             (Examples.run (_matmul 0 1) Examples.st_AB)
    = (st2, Ok tt) /\
    Examples.grad_data st2 0
    = Some (mk_ndarray [2; 3] [1; 1; 2; 1; 1; 2]%Z) /\
    Examples.grad_data st2 1
    = Some (mk_ndarray [3; 2] [5; 5; 7; 7; 9; 9]%Z).
Proof.
  destruct (@matmul_backward Z Z_Scalar 0 Examples.st_AB 0 1
              (Tensor_init Examples.A_data true None)
              (Tensor_init Examples.B_data true None)
              (plain_tensor (zeros_like Examples.A_data))
              (plain_tensor (zeros_like Examples.B_data))
              2 3 2 Examples.ones_2_2
              Z.add_0_l ltac:(discriminate)
              eq_refl eq_refl eq_refl eq_refl eq_refl eq_refl
              eq_refl eq_refl eq_refl eq_refl eq_refl eq_refl eq_refl)
    as (tc & bT & aT & dA & dB & st2 & ta' & tb' &
        Hmm & HbT & HdA & _ & HaT & HdB & _ & Hb & La & Ga & Lb & Gb).
  exists st2. split; [|split].
  - unfold Examples.run. rewrite Hmm. exact Hb.
  - unfold Examples.grad_data. rewrite La, Ga.
    vm_compute in HbT. injection HbT as <-.
    vm_compute in HdA. injection HdA as <-. reflexivity.
  - unfold Examples.grad_data. rewrite Lb, Gb.
    vm_compute in HaT. injection HaT as <-.
    vm_compute in HdB. injection HdB as <-. reflexivity.
Defined.

Section Frames.
Context {R : Type} `{!Scalar R}.

Lemma frame_refl (st : store R) : frame st st.
Proof. split; [reflexivity|]. intros r t L. exists t. auto. Qed.

Lemma frame_trans (st1 st2 st3 : store R) :
  frame st1 st2 -> frame st2 st3 -> frame st1 st3.
Proof.
  intros [L12 F12] [L23 F23]. split; [congruence|].
  intros r t L. destruct (F12 r t L) as [t2 [L2 [R2 [D2 G2]]]].
  destruct (F23 r t2 L2) as [t3 [L3 [R3 [D3 G3]]]].
  exists t3. repeat split; try congruence. auto.
Qed.

Lemma frame_assign (st : store R) (r : ref) (t t' : Tensor R) :
  st !! r = Some t ->
  requires_grad t' = requires_grad t -> depends_on t' = depends_on t ->
  grad t' <> None ->
  frame st (<[r := t']> st).
Proof.
  intros L Hr Hd Hg. split; [apply length_insert|].
  intros r0 t0 L0. destruct (decide (r = r0)) as [<-|Hne].
  - exists t'. rewrite (lookup_assign_same _ _ _ _ L).
    assert (t0 = t) by congruence. subst t0. auto.
  - exists t0. rewrite list_lookup_insert_ne by exact Hne. auto.
Qed.

Lemma edge_ok_frame (st st' : store R) (d : Dependency R) :
  frame st st' -> edge_ok st d -> edge_ok st' d.
Proof.
  intros [_ F] [t [L [Hr Hg]]].
  destruct (F _ _ L) as [t' [L' [R' [_ G']]]].
  exists t'. repeat split; [exact L'|congruence|auto].
Qed.

Lemma store_ok_frame (st st' : store R) :
  frame st st' -> store_ok st -> store_ok st'.
Proof.
  intros Hf Hok. unfold store_ok in *. apply Forall_lookup_2.
  intros r t' L'. destruct Hf as [Hlen F].
  assert (Hlt : r < length st)
    by (rewrite <- Hlen; eapply lookup_lt_Some; eauto).
  destruct (lookup_lt_is_Some_2 st r Hlt) as [t L].
  destruct (F r t L) as [t1 [L1 [R1 [D1 G1]]]].
  assert (t1 = t') by congruence. subst t1.
  pose proof (Forall_lookup_1 _ _ _ _ Hok L) as [Hg Hd].
  split.
  - rewrite R1. auto.
  - rewrite D1. destruct (depends_on t) as [l|]; [|exact I].
    eapply Forall_impl; [exact Hd|].
    intros d. apply edge_ok_frame. split; assumption.
Qed.

Lemma edge_ok_alloc (st : store R) (t : Tensor R) (d : Dependency R) :
  edge_ok st d -> edge_ok (st ++ [t]) d.
Proof.
  intros [u [L H]]. exists u. split; [now apply lookup_alloc_old|exact H].
Qed.

Lemma Tensor_init_fields (d : ndarray R) (rg : bool)
      (deps : option (DependsOn R)) :
  requires_grad (Tensor_init d rg deps) = rg /\
  depends_on (Tensor_init d rg deps) = or_empty deps /\
  (rg = true -> grad (Tensor_init d rg deps) <> None).
Proof. unfold Tensor_init. destruct rg; simpl; repeat split; congruence. Qed.

(** A new tensor whose edges are in order keeps the store in order. *)
Lemma store_ok_Tensor_new (st : store R) (d : ndarray R) (rg : bool)
      (deps : option (DependsOn R)) :
  store_ok st ->
  (forall l, or_empty deps = dep_list l -> Forall (edge_ok st) l) ->
  store_ok (st ++ [Tensor_init d rg deps]).
Proof.
  intros Hok Hdeps. unfold store_ok.
  destruct (Tensor_init_fields d rg deps) as [Hr [Hd Hg]].
  apply Forall_app. split.
  - eapply Forall_impl; [exact Hok|]. intros t [Ht1 Ht2]. split; [exact Ht1|].
    destruct (depends_on t) as [l|]; [|exact I].
    eapply Forall_impl; [exact Ht2|]. intros e. apply edge_ok_alloc.
  - constructor; [|constructor]. split.
    + rewrite Hr. exact Hg.
    + rewrite Hd. destruct (or_empty deps) as [l|] eqn:E; [|exact I].
      eapply Forall_impl; [exact (Hdeps l eq_refl)|].
      intros e. apply edge_ok_alloc.
Qed.

Lemma edge_ok_source (st : store R) (r : ref) (t : Tensor R) (f : GradFn R) :
  store_ok st -> st !! r = Some t -> requires_grad t = true ->
  edge_ok st (mkDependency r f).
Proof.
  intros Hok L Hr. exists t. split; [exact L|]. split; [exact Hr|].
  exact (proj1 (Forall_lookup_1 _ _ _ _ Hok L) Hr).
Qed.

Lemma Forall_append_if (st : store R) (c : bool) (r : ref) (t : Tensor R)
      (f : GradFn R) (l : list (Dependency R)) :
  store_ok st -> st !! r = Some t -> c = requires_grad t ->
  Forall (edge_ok st) l ->
  Forall (edge_ok st) (append_if c (mkDependency r f) l).
Proof.
  intros Hok L -> Hl. unfold append_if.
  destruct (requires_grad t) eqn:Hr; [|exact Hl].
  apply Forall_app. split; [exact Hl|].
  constructor; [|constructor]. now apply (edge_ok_source st r t).
Qed.

End Frames.

Section BackwardSteps.
Context {R : Type} `{!Scalar R}.

(** The seed used by [backward]. *)
Local Abbreviation seed_of t grad_arg :=
  (match grad_arg with
   | Some g => Ok g
   | None =>
       match shape t with
       | [] => Ok (np_array rone)
       | _ :: _ => Raise RuntimeError
       end
   end).

(** [backward], one call unfolded. *)
Lemma backward_S (fuel : nat) (self : ref) (grad_arg : option (ndarray R))
      (st : store R) :
  backward (S fuel) self grad_arg st
  = match st !! self with
    | None => (st, Raise OutOfModel)
    | Some t =>
        if requires_grad t then
          match seed_of t grad_arg with
          | Raise e => (st, Raise e)
          | Ok g =>
              match grad t with
              | None => (st, Raise (AttributeError NoneType "data"))
              | Some gt =>
                  match nd_add (data gt) g with
                  | Raise e => (st, Raise e)
                  | Ok v =>
                      let st1 :=
                        <[self := set_grad (Some (set_data v gt)) t]> st in
                      match depends_on t with
                      | dep_list l => for_each l (visit fuel g) st1
                      | dep_tuple _ =>
                          (st1, Raise (AttributeError TensorClass "grad_fn"))
                      end
                  end
              end
          end
        else (st, Raise AssertionError)
    end.
Proof.
  simpl. unfold bind at 1. unfold deref at 1.
  destruct (st !! self) as [t|] eqn:L; [|reflexivity].
  destruct (requires_grad t) eqn:Hr; [|reflexivity]. simpl.
  assert (Hgen : forall g,
    bind (accumulate self g)
      (fun _ => bind (deref self) (fun t0 =>
         match depends_on t0 with
         | dep_list l => for_each l (visit fuel g)
         | dep_tuple _ => raise (AttributeError TensorClass "grad_fn")
         end)) st
    = match grad t with
      | None => (st, Raise (AttributeError NoneType "data"))
      | Some gt =>
          match nd_add (data gt) g with
          | Raise e => (st, Raise e)
          | Ok v =>
              let st1 := <[self := set_grad (Some (set_data v gt)) t]> st in
              match depends_on t with
              | dep_list l => for_each l (visit fuel g) st1
              | dep_tuple _ =>
                  (st1, Raise (AttributeError TensorClass "grad_fn"))
              end
          end
      end).
  { intros g. unfold bind at 1.
    destruct (grad t) as [gt|] eqn:Hg.
    - destruct (nd_add (data gt) g) as [v|e] eqn:Hv.
      + rewrite (accumulate_Some _ _ _ _ _ _ L Hg Hv). unfold bind at 1.
        rewrite (deref_Some _ _ _ (lookup_assign_same _ _ _ _ L)).
        cbv zeta. change (depends_on (set_grad (Some (set_data v gt)) t))
          with (depends_on t).
        destruct (depends_on t); reflexivity.
      + unfold accumulate, bind, lift.
        now rewrite (deref_Some _ _ _ L), Hg, Hv.
    - now rewrite (accumulate_None _ _ _ _ L Hg). }
  destruct grad_arg as [g|]; unfold bind at 1, ret.
  - apply Hgen.
  - destruct (shape t); [apply Hgen|reflexivity].
Qed.

Lemma for_each_cons_run (fuel : nat) (g : ndarray R) (d : Dependency R)
      (l : list (Dependency R)) (st : store R) :
  for_each (d :: l) (visit fuel g) st
  = match call_grad_fn st (grad_fn d) g with
    | Raise e => (st, Raise e)
    | Ok bg =>
        match backward fuel (tensor d) (Some bg) st with
        | (st', Ok _) => for_each l (visit fuel g) st'
        | (st', Raise e) => (st', Raise e)
        end
    end.
Proof.
  cbn [for_each]. unfold bind at 1. unfold bind at 1, lift.
  destruct (call_grad_fn st (grad_fn d) g); reflexivity.
Qed.

(** [backward] only ever touches accumulators that are present. *)
Lemma backward_frame (fuel : nat) :
  forall self grad_arg (st st' : store R) out,
    backward fuel self grad_arg st = (st', out) -> frame st st'.
Proof.
  induction fuel as [|fuel IH]; intros self grad_arg st st' out H.
  - injection H as <- _. apply frame_refl.
  - rewrite backward_S in H.
    destruct (st !! self) as [t|] eqn:L;
      [|injection H as <- _; apply frame_refl].
    destruct (requires_grad t); [|injection H as <- _; apply frame_refl].
    destruct (seed_of t grad_arg) as [g|e];
      [|injection H as <- _; apply frame_refl].
    destruct (grad t) as [gt|] eqn:Hg;
      [|injection H as <- _; apply frame_refl].
    destruct (nd_add (data gt) g) as [v|e];
      [|injection H as <- _; apply frame_refl].
    cbv zeta in H.
    assert (F1 : frame st (<[self := set_grad (Some (set_data v gt)) t]> st))
      by (apply (frame_assign st self t); [exact L|reflexivity..|discriminate]).
    destruct (depends_on t) as [l|d];
      [|injection H as <- _; exact F1].
    eapply frame_trans; [exact F1|]. clear F1 L Hg.
    revert H. generalize (<[self := set_grad (Some (set_data v gt)) t]> st).
    induction l as [|d l IHl]; intros st0 H.
    + injection H as <- _. apply frame_refl.
    + rewrite for_each_cons_run in H.
      destruct (call_grad_fn st0 (grad_fn d) g) as [bg|e];
        [|injection H as <- _; apply frame_refl].
      destruct (backward fuel (tensor d) (Some bg) st0) as [st1 o1] eqn:E.
      apply IH in E. destruct o1 as [[]|e].
      * eapply frame_trans; [exact E|]. now apply IHl.
      * injection H as <- _. exact E.
Qed.

End BackwardSteps.

Section ArrayExceptions.
Context {R : Type} `{!Scalar R}.

Lemma rbind_Raise {A B} (r : result A) (f : A -> result B) e :
  rbind r f = Raise e -> r = Raise e \/ exists a, r = Ok a /\ f a = Raise e.
Proof. destruct r as [a|e']; simpl; [eauto|intros [= ->]; auto]. Qed.

Lemma nd_binop_exn (f : R -> R -> R) (a b : ndarray R) e :
  nd_binop f a b = Raise e -> array_exn e.
Proof.
  unfold nd_binop. destruct (broadcast_shapes _ _); [discriminate|].
  intros [= <-]. unfold array_exn. auto.
Qed.

Lemma nd_sum_axis_exn (i : nat) (kd : bool) (g : ndarray R) e :
  nd_sum_axis i kd g = Raise e -> array_exn e.
Proof.
  unfold nd_sum_axis. destruct (nd_shape g !! i); [discriminate|].
  intros [= <-]. unfold array_exn. auto.
Qed.

Lemma sum_added_dims_exn (n : nat) :
  forall (g : ndarray R) e, sum_added_dims n g = Raise e -> array_exn e.
Proof.
  induction n as [|n IH]; intros g e; simpl; [discriminate|].
  intros H. apply rbind_Raise in H as [H|[a [_ H]]].
  - eapply nd_sum_axis_exn; eauto.
  - eapply IH; eauto.
Qed.

Lemma sum_broadcast_dims_exn (s : list nat) :
  forall (i : nat) (g : ndarray R) e,
    sum_broadcast_dims i s g = Raise e -> array_exn e.
Proof.
  induction s as [|dim s IH]; intros i g e; simpl; [discriminate|].
  destruct (dim =? 1); [|apply IH].
  intros H. apply rbind_Raise in H as [H|[a [_ H]]].
  - eapply nd_sum_axis_exn; eauto.
  - eapply IH; eauto.
Qed.

Lemma reduce_grad_exn (t : Tensor R) (g : ndarray R) e :
  reduce_grad t g = Raise e -> array_exn e.
Proof.
  unfold reduce_grad. intros H.
  apply rbind_Raise in H as [H|[a [_ H]]].
  - eapply sum_added_dims_exn; eauto.
  - eapply sum_broadcast_dims_exn; eauto.
Qed.

Lemma lookup_tensor_exn (st : store R) (r : ref) e :
  lookup_tensor st r = Raise e -> array_exn e.
Proof.
  unfold lookup_tensor. destruct (st !! r); [discriminate|].
  intros [= <-]. unfold array_exn. auto.
Qed.

Lemma nd_T_exn (a : ndarray R) e : nd_T a = Raise e -> array_exn e.
Proof.
  unfold nd_T. intros H. unfold array_exn.
  repeat case_match; simplify_eq; auto.
Qed.

Lemma nd_matmul_exn (a b : ndarray R) e :
  nd_matmul a b = Raise e -> array_exn e.
Proof.
  unfold nd_matmul. intros H. unfold array_exn.
  repeat case_match; simplify_eq; auto.
Qed.

Lemma positions_exn (n : nat) (ix : index) e :
  positions n ix = Raise e -> array_exn e.
Proof.
  unfold positions. intros H. unfold array_exn.
  repeat case_match; simplify_eq; auto.
Qed.

Lemma nd_setitem_exn (a v : ndarray R) (ix : index) e :
  nd_setitem a ix v = Raise e -> array_exn e.
Proof.
  unfold nd_setitem. destruct (nd_shape a) as [|n rest].
  - intros [= <-]. unfold array_exn. auto.
  - intros H. apply rbind_Raise in H as [H|[ps [_ H]]].
    + eapply positions_exn; eauto.
    + destruct (broadcastable_to _ _); [discriminate|].
      injection H as <-. unfold array_exn. auto.
Qed.

(** A closure fails only with an exception of the array substrate. *)
Lemma call_grad_fn_exn (st : store R) (f : GradFn R) (g : ndarray R) e :
  call_grad_fn st f g = Raise e -> array_exn e.
Proof.
  destruct f; simpl; intros H;
    repeat match type of H with
    | rbind _ _ = Raise _ =>
        apply rbind_Raise in H as [H|[? [_ H]]]
    end;
    eauto using lookup_tensor_exn, nd_binop_exn, reduce_grad_exn,
                nd_T_exn, nd_matmul_exn, nd_setitem_exn;
    try discriminate.
Qed.

Lemma array_exn_safe e : array_exn e -> propagation_safe (Raise e).
Proof.
  intros [-> | [-> | [-> | ->]]]; split; discriminate.
Qed.

End ArrayExceptions.

Section Safety.
Context {R : Type} `{!Scalar R}.

Lemma backward_store_ok (fuel : nat) self grad_arg (st st' : store R) out :
  store_ok st -> backward fuel self grad_arg st = (st', out) -> store_ok st'.
Proof.
  intros Hok H. eapply store_ok_frame; [|exact Hok].
  eapply backward_frame; eauto.
Qed.

(** In a store in order, [backward] on a differentiable tensor fails
    neither on the [requires_grad] check nor on an absent accumulator,
    however deep the propagation goes. *)
Lemma backward_safe (fuel : nat) :
  forall self grad_arg (st st' : store R) t out,
    store_ok st -> st !! self = Some t -> requires_grad t = true ->
    backward fuel self grad_arg st = (st', out) ->
    propagation_safe out.
Proof.
  induction fuel as [|fuel IH]; intros self grad_arg st st' t out Hok L Hr H.
  - injection H as _ <-. split; discriminate.
  - rewrite backward_S, L, Hr in H.
    destruct (match grad_arg with Some g => Ok g | None => _ end) as [g|e]
      eqn:Hseed.
    2:{ injection H as _ <-.
        destruct grad_arg; [discriminate|].
        destruct (shape t); [discriminate|].
        injection Hseed as <-. split; discriminate. }
    pose proof (Forall_lookup_1 _ _ _ _ Hok L) as [Hgrad Hdeps].
    destruct (grad t) as [gt|] eqn:Hg; [|now destruct (Hgrad Hr)].
    destruct (nd_add (data gt) g) as [v|e] eqn:Hv.
    2:{ injection H as _ <-. apply array_exn_safe.
        eapply nd_binop_exn; eauto. }
    cbv zeta in H.
    assert (F1 : frame st (<[self := set_grad (Some (set_data v gt)) t]> st))
      by (apply (frame_assign st self t); [exact L|reflexivity..|discriminate]).
    destruct (depends_on t) as [l|d].
    2:{ injection H as _ <-. split; discriminate. }
    assert (Hok1 : store_ok (<[self := set_grad (Some (set_data v gt)) t]> st))
      by (eapply store_ok_frame; eauto).
    assert (Hl : Forall (edge_ok
                   (<[self := set_grad (Some (set_data v gt)) t]> st)) l).
    { eapply Forall_impl; [exact Hdeps|]. intros d. now apply edge_ok_frame. }
    clear F1 L Hg Hok Hdeps Hgrad.
    revert H Hok1 Hl.
    generalize (<[self := set_grad (Some (set_data v gt)) t]> st).
    induction l as [|d l IHl]; intros st0 H Hok0 Hl.
    + injection H as _ <-. split; discriminate.
    + rewrite for_each_cons_run in H.
      apply Forall_cons in Hl as [[td [Ld [Hrd Hgd]]] Hl].
      destruct (call_grad_fn st0 (grad_fn d) g) as [bg|e] eqn:Hc.
      2:{ injection H as _ <-. apply array_exn_safe.
          eapply call_grad_fn_exn; eauto. }
      destruct (backward fuel (tensor d) (Some bg) st0) as [st1 o1] eqn:E.
      pose proof (IH _ _ _ _ _ _ Hok0 Ld Hrd E) as Hsafe.
      pose proof (backward_frame _ _ _ _ _ _ E) as F.
      destruct o1 as [[]|e].
      * apply (IHl st1 H).
        -- eapply store_ok_frame; eauto.
        -- eapply Forall_impl; [exact Hl|]. intros d'.
           now apply edge_ok_frame.
      * injection H as _ <-. exact Hsafe.
Qed.

Lemma store_ok_nil : store_ok ([] : store R).
Proof. constructor. Qed.

Lemma store_ok_unary (st : store R) (t : ref) (tt : Tensor R)
      (d : ndarray R) (f : GradFn R) :
  store_ok st -> st !! t = Some tt ->
  store_ok (st ++ [Tensor_init d (requires_grad tt)
                     (Some (if requires_grad tt
                            then dep_list [mkDependency t f]
                            else dep_list []))]).
Proof.
  intros Hok L. apply store_ok_Tensor_new; [exact Hok|].
  intros l Hl. destruct (requires_grad tt) eqn:Hr; simpl in Hl;
    injection Hl as <-; [|constructor].
  constructor; [|constructor]. now apply (edge_ok_source st t tt).
Qed.

Lemma store_ok_binary (st : store R) (t1 t2 : ref) (a b : Tensor R)
      (d : ndarray R) (rg : bool) (f1 f2 : GradFn R) :
  store_ok st -> st !! t1 = Some a -> st !! t2 = Some b ->
  store_ok
    (st ++ [Tensor_init d rg
              (Some (dep_list
                 (append_if (requires_grad b) (mkDependency t2 f2)
                    (append_if (requires_grad a) (mkDependency t1 f1)
                       []))))]).
Proof.
  intros Hok L1 L2. apply store_ok_Tensor_new; [exact Hok|].
  intros l Hl. rewrite or_empty_list in Hl. injection Hl as <-.
  apply (Forall_append_if st _ t2 b); [exact Hok|exact L2|reflexivity|].
  apply (Forall_append_if st _ t1 a); [exact Hok|exact L1|reflexivity|].
  constructor.
Qed.

Lemma _tensor_sum_store_ok (st st' : store R) t r :
  store_ok st -> _tensor_sum t st = (st', Ok r) -> store_ok st'.
Proof.
  intros Hok H. unfold _tensor_sum, bind, deref, Tensor_new, alloc in H.
  destruct (st !! t) as [tt|] eqn:L; [|discriminate].
  injection H as <- _. now apply store_ok_unary.
Qed.

Lemma _neg_store_ok (st st' : store R) t r :
  store_ok st -> _neg t st = (st', Ok r) -> store_ok st'.
Proof.
  intros Hok H. unfold _neg, bind, deref, Tensor_new, alloc in H.
  destruct (st !! t) as [tt|] eqn:L; [|discriminate].
  injection H as <- _. now apply store_ok_unary.
Qed.

Lemma _add_store_ok (st st' : store R) t1 t2 r :
  store_ok st -> _add t1 t2 st = (st', Ok r) -> store_ok st'.
Proof.
  intros Hok H. unfold _add, bind, deref, lift, Tensor_new, alloc in H.
  destruct (st !! t1) as [a|] eqn:L1; [|discriminate].
  destruct (st !! t2) as [b|] eqn:L2; [|discriminate].
  destruct (nd_add (data a) (data b)) as [d|]; [|discriminate].
  injection H as <- _. now apply (store_ok_binary st t1 t2 a b).
Qed.

Lemma _multiply_store_ok (st st' : store R) t1 t2 r :
  store_ok st -> _multiply t1 t2 st = (st', Ok r) -> store_ok st'.
Proof.
  intros Hok H. unfold _multiply, bind, deref, lift, Tensor_new, alloc in H.
  destruct (st !! t1) as [a|] eqn:L1; [|discriminate].
  destruct (st !! t2) as [b|] eqn:L2; [|discriminate].
  destruct (nd_mul (data a) (data b)) as [d|]; [|discriminate].
  injection H as <- _. now apply (store_ok_binary st t1 t2 a b).
Qed.

Lemma _matmul_store_ok (st st' : store R) t1 t2 r :
  store_ok st -> _matmul t1 t2 st = (st', Ok r) -> store_ok st'.
Proof.
  intros Hok H. unfold _matmul, bind, deref, lift, Tensor_new, alloc in H.
  destruct (st !! t1) as [a|] eqn:L1; [|discriminate].
  destruct (st !! t2) as [b|] eqn:L2; [|discriminate].
  destruct (nd_matmul (data a) (data b)) as [d|]; [|discriminate].
  injection H as <- _. now apply (store_ok_binary st t1 t2 a b).
Qed.

Lemma _sub_store_ok (st st' : store R) t1 t2 r :
  store_ok st -> _sub t1 t2 st = (st', Ok r) -> store_ok st'.
Proof.
  intros Hok H. unfold _sub in H. unfold bind at 1 in H.
  destruct (_neg t2 st) as [st1 [n|e]] eqn:E; [|discriminate].
  eapply _add_store_ok; [|exact H]. eapply _neg_store_ok; eauto.
Qed.

Lemma _slice_store_ok (st st' : store R) t idxs r :
  store_ok st -> _slice t idxs st = (st', Ok r) -> store_ok st'.
Proof.
  intros Hok H. unfold _slice, bind, deref, lift, Tensor_new, alloc in H.
  destruct (st !! t) as [tt|] eqn:L; [|discriminate].
  destruct (nd_getitem (data tt) idxs) as [d|]; [|discriminate].
  injection H as <- _. apply store_ok_Tensor_new; [exact Hok|].
  intros l Hl. destruct (requires_grad tt); simpl in Hl; [discriminate|].
  injection Hl as <-. constructor.
Qed.

Lemma zero_grad_store_ok (st st' : store R) t :
  store_ok st -> zero_grad t st = (st', Ok tt) -> store_ok st'.
Proof.
  intros Hok H. unfold zero_grad, bind, deref, assign in H.
  destruct (st !! t) as [u|] eqn:L; [|discriminate].
  injection H as <-. eapply store_ok_frame; [|exact Hok].
  apply (frame_assign st t u); [exact L|reflexivity..|discriminate].
Qed.

(** Every store built by the constructors is in order: each edge leads
    to a differentiable tensor whose accumulator is present. *)
Lemma built_store_ok (st : store R) : built st -> store_ok st.
Proof.
  induction 1;
    eauto using store_ok_nil, _tensor_sum_store_ok, _neg_store_ok,
                _add_store_ok, _multiply_store_ok, _matmul_store_ok,
                _sub_store_ok, _slice_store_ok, zero_grad_store_ok,
                backward_store_ok.
  unfold Tensor_new, alloc. simpl.
  apply store_ok_Tensor_new; [assumption|].
  intros l [= <-]. constructor.
Qed.

(** C10. In a store built by the operation constructors from leaves
    whose data is never replaced, every edge leads to a tensor with
    [requires_grad] true and a present accumulator, before and after any
    [backward]; hence [backward] on a differentiable tensor never fails
    with NotDifferentiable nor on an absent [grad], at any depth of the
    propagation. *)
Theorem backward_propagation_safe
        (fuel : nat) (st : store R) (self : ref) (t : Tensor R)
        (grad_arg : option (ndarray R)) :
  built st ->
  st !! self = Some t ->
  requires_grad t = true ->
  store_ok st /\
  store_ok (fst (backward fuel self grad_arg st)) /\
  snd (backward fuel self grad_arg st) <> Raise NotDifferentiable /\
  snd (backward fuel self grad_arg st)
  <> Raise (AttributeError NoneType "data").
Proof.
  intros Hb L Hr. pose proof (built_store_ok st Hb) as Hok.
  destruct (backward fuel self grad_arg st) as [st' out] eqn:E.
  split; [exact Hok|]. split.
  - eapply backward_store_ok; eauto.
  - exact (backward_safe fuel _ _ _ _ _ _ Hok L Hr E).
Qed.

End Safety.

Lemma st_mul_built : built Examples.st_mul.
Proof.
  apply (built_multiply Examples.st_ab 0 1 Examples.st_mul 2).
  - apply (built_leaf _ (np_array 2%Z) false).
    apply (built_leaf _ (np_array 3%Z) true). apply built_empty.
  - reflexivity.
Qed.

Lemma backward_propagation_safe_witness :
  store_ok Examples.st_mul /\
  store_ok (fst (backward 5 2 None Examples.st_mul)) /\
  snd (backward 5 2 None Examples.st_mul) <> Raise NotDifferentiable /\
  snd (backward 5 2 None Examples.st_mul)
  <> Raise (AttributeError NoneType "data").
Proof.
  assert (L : Examples.st_mul !! 2
              = Some (Tensor_init (np_array 6%Z) true
                        (Some (dep_list
                           [mkDependency 0 (multiply_grad_fn1 0 1)]))))
    by reflexivity.
  exact (backward_propagation_safe 5 Examples.st_mul 2 _ None
           st_mul_built L eq_refl).
Defined.

(** ** Further properties of the tensor class *)

Section InPlace.
Context {R : Type} `{!Scalar R}.

Lemma assign_data_run (st : store R) x t v :
  st !! x = Some t ->
  assign_data x v st = (<[x := set_data v t]> st, Ok tt).
Proof.
  intros L. unfold assign_data, bind. now rewrite (deref_Some _ _ _ L).
Qed.

Lemma zero_grad_run (st : store R) x t :
  st !! x = Some t ->
  zero_grad x st = (<[x := zero_grad_obj t]> st, Ok tt).
Proof.
  intros L. unfold zero_grad, bind. now rewrite (deref_Some _ _ _ L).
Qed.

Lemma inplace_run (op : ndarray R -> ndarray R -> result (ndarray R))
      (st : store R) self other t o :
  st !! self = Some t -> st !! other = Some o ->
  inplace op self (tb_tensor other) st
  = match op (data t) (data o) with
    | Ok v => (<[self := set_data v t]> st, Ok self)
    | Raise e => (st, Raise e)
    end.
Proof.
  intros L1 L2. unfold inplace, bind, ensure_tensor, ret, lift.
  rewrite (deref_Some _ _ _ L1). cbn beta iota.
  rewrite (deref_Some _ _ _ L2). cbn beta iota.
  destruct (op (data t) (data o)); reflexivity.
Qed.

(** X1. [+=], [*=] and [-=] with a tensor on the right replace the data
    of the left tensor by the combined array, clear its accumulator, keep
    its flag, edges and recorded shape, touch no other tensor, create
    none and return the left tensor; when the operation on the arrays
    fails, nothing changes. *)
Theorem inplace_combinators
        (st : store R) (self other : ref) (t o : Tensor R)
        (m : ref -> Tensorable R -> M R ref)
        (op : ndarray R -> ndarray R -> result (ndarray R)) :
  st !! self = Some t ->
  st !! other = Some o ->
  (m = __iadd__ /\ op = nd_add) \/
  (m = __imul__ /\ op = nd_mul) \/
  (m = __isub__ /\ op = fun a b => nd_add a (nd_neg b)) ->
  (forall e, op (data t) (data o) = Raise e ->
             m self (tb_tensor other) st = (st, Raise e)) /\
  (forall v, op (data t) (data o) = Ok v ->
     exists st' t',
       m self (tb_tensor other) st = (st', Ok self) /\
       length st' = length st /\
       st' !! self = Some t' /\
       data t' = v /\ grad t' = None /\
       requires_grad t' = requires_grad t /\
       depends_on t' = depends_on t /\
       shape t' = shape t /\
       forall r, r <> self -> st' !! r = st !! r).
Proof.
  intros L1 L2 Hm.
  assert (E : m self (tb_tensor other) st
              = match op (data t) (data o) with
                | Ok v => (<[self := set_data v t]> st, Ok self)
                | Raise e => (st, Raise e)
                end).
  { destruct Hm as [[-> ->] | [[-> ->] | [-> ->]]];
      [exact (inplace_run nd_add st self other t o L1 L2)
      |exact (inplace_run nd_mul st self other t o L1 L2)
      |exact (inplace_run (fun a b => nd_add a (nd_neg b))
                st self other t o L1 L2)]. }
  split.
  - intros e He. now rewrite E, He.
  - intros v Hv. exists (<[self := set_data v t]> st), (set_data v t).
    rewrite E, Hv. repeat split.
    + apply length_insert.
    + eapply lookup_assign_same; eauto.
    + intros r Hr. now apply list_lookup_insert_ne.
Qed.

(** X2. After the data of a differentiable tensor has been replaced,
    [backward] on it fails on the absent accumulator and changes nothing;
    once [zero_grad] has been called, [backward] on a leaf succeeds again
    and the accumulator holds zeros of the new data's shape plus the
    seed. *)
Theorem data_replacement_blocks_backward
        (fuel : nat) (st : store R) (x : ref) (t : Tensor R)
        (v g : ndarray R) :
  st !! x = Some t ->
  requires_grad t = true ->
  let st1 := <[x := set_data v t]> st in
  let st2 := <[x := zero_grad_obj (set_data v t)]> st1 in
  assign_data x v st = (st1, Ok tt) /\
  backward (S fuel) x (Some g) st1
  = (st1, Raise (AttributeError NoneType "data")) /\
  zero_grad x st1 = (st2, Ok tt) /\
  (depends_on t = dep_list [] ->
   forall g1, nd_add (zeros_like v) g = Ok g1 ->
     exists st3 t3,
       backward (S fuel) x (Some g) st2 = (st3, Ok tt) /\
       st3 !! x = Some t3 /\ data t3 = v /\
       option_map data (grad t3) = Some g1).
Proof.
  intros L Hr st1 st2.
  assert (L1 : st1 !! x = Some (set_data v t))
    by (eapply lookup_assign_same; eauto).
  assert (L2 : st2 !! x = Some (zero_grad_obj (set_data v t)))
    by (eapply lookup_assign_same; eauto).
  split; [now apply assign_data_run|].
  split; [rewrite backward_S, L1; simpl; now rewrite Hr|].
  split; [now apply zero_grad_run|].
  intros Hd g1 Hg1.
  eexists _, _. split; [|split; [|split]].
  - apply (backward_leaf fuel st2 x _ (plain_tensor (zeros_like v)) g g1 L2);
      [exact Hr|exact Hd|reflexivity|exact Hg1].
  - eapply lookup_assign_same; eauto.
  - reflexivity.
  - reflexivity.
Qed.

(** X3. The test for a scalar in [backward] reads the shape recorded at
    construction, which replacing the data does not update: a leaf
    constructed with an empty shape accepts [backward()] without a seed
    whatever the shape of its present data (1 is added to every entry of
    the accumulator), and a tensor constructed with a non-empty shape
    rejects it even when its present data is a scalar. *)
Theorem scalar_test_reads_recorded_shape
        (fuel : nat) (st : store R) (x : ref) (t : Tensor R)
        (v : ndarray R) :
  st !! x = Some t ->
  requires_grad t = true ->
  let st2 := <[x := zero_grad_obj (set_data v t)]>
               (<[x := set_data v t]> st) in
  bind (assign_data x v) (fun _ => zero_grad x) st = (st2, Ok tt) /\
  (exists t2, st2 !! x = Some t2 /\ data t2 = v /\ shape t2 = shape t) /\
  (shape t <> [] ->
   backward (S fuel) x None st2 = (st2, Raise MissingGradient)) /\
  (shape t = [] -> depends_on t = dep_list [] ->
   exists g1 st3 t3,
     nd_add (zeros_like v) (np_array rone) = Ok g1 /\
     nd_shape g1 = nd_shape v /\
     backward (S fuel) x None st2 = (st3, Ok tt) /\
     st3 !! x = Some t3 /\
     option_map data (grad t3) = Some g1).
Proof.
  intros L Hr st2.
  assert (L1 : <[x := set_data v t]> st !! x = Some (set_data v t))
    by (eapply lookup_assign_same; eauto).
  assert (L2 : st2 !! x = Some (zero_grad_obj (set_data v t)))
    by (eapply lookup_assign_same; eauto).
  split; [|split; [|split]].
  - unfold bind. rewrite (assign_data_run _ _ _ _ L).
    now rewrite (zero_grad_run _ _ _ L1).
  - eexists. split; [exact L2|]. split; reflexivity.
  - intros Hs. rewrite backward_S, L2. simpl. rewrite Hr.
    destruct (shape t); [congruence|reflexivity].
  - intros Hs Hd.
    destruct (nd_add_scalar_r (zeros_like v) rone) as [g1 [Hg1 Hg1s]].
    eexists g1, _, _. split; [exact Hg1|]. split; [exact Hg1s|].
    split; [|split].
    + rewrite backward_S, L2. simpl. rewrite Hr, Hs.
      unfold nd_add in Hg1. simpl in Hg1. unfold nd_add. rewrite Hg1.
      simpl. rewrite Hd. reflexivity.
    + eapply lookup_assign_same; eauto.
    + reflexivity.
Qed.

End InPlace.

Lemma inplace_combinators_witness :
  exists st' t',
    __iadd__ 0 (tb_tensor 1) Examples.st_ab = (st', Ok 0) /\
    st' !! 0 = Some t' /\ data t' = np_array 5%Z /\ grad t' = None.
Proof.
  destruct (inplace_combinators Examples.st_ab 0 1
              (Tensor_init (np_array 3%Z) true None)
              (Tensor_init (np_array 2%Z) false None)
              __iadd__ nd_add eq_refl eq_refl
              (or_introl (conj eq_refl eq_refl))) as [_ H].
  assert (Hv : nd_add (data (Tensor_init (np_array 3%Z) true None))
                      (data (Tensor_init (np_array 2%Z) false None))
               = Ok (np_array 5%Z)) by (vm_compute; reflexivity).
  destruct (H _ Hv) as (st' & t' & E & _ & L & D & G & _).
  exists st', t'. auto.
Defined.

Lemma data_replacement_blocks_backward_witness :
  backward 1 0 (Some (np_array 1%Z)) Examples.st_replaced
  = (Examples.st_replaced, Raise (AttributeError NoneType "data")).
Proof.
  exact (proj1 (proj2 (data_replacement_blocks_backward 0
                         Examples.st_scalar 0
                         (Tensor_init (np_array 2%Z) true None)
                         (np_array 3%Z) (np_array 1%Z) eq_refl eq_refl))).
Defined.

Lemma scalar_test_reads_recorded_shape_witness :
  exists g1 st3 t3,
    nd_add (zeros_like (np_array_list [1; 2; 3]%Z)) (np_array 1%Z) = Ok g1 /\
    nd_shape g1 = [3] /\
    backward 1 0 None
      (<[0 := zero_grad_obj (set_data (np_array_list [1; 2; 3]%Z)
                               (Tensor_init (np_array 2%Z) true None))]>
         (<[0 := set_data (np_array_list [1; 2; 3]%Z)
                   (Tensor_init (np_array 2%Z) true None)]>
            Examples.st_scalar))
    = (st3, Ok tt) /\
    st3 !! 0 = Some t3 /\
    option_map data (grad t3) = Some g1.
Proof.
  exact (proj2 (proj2 (proj2
           (scalar_test_reads_recorded_shape 0 Examples.st_scalar 0
              (Tensor_init (np_array 2%Z) true None)
              (np_array_list [1; 2; 3]%Z) eq_refl eq_refl)))
           eq_refl eq_refl).
Defined.

Section OnlyGrads.
Context {R : Type} `{!Scalar R}.

Lemma only_grads_refl (st : store R) : only_grads_change st st.
Proof.
  split; [reflexivity|]. intros r t L. exists t. repeat split; auto.
Qed.

Lemma only_grads_trans (st1 st2 st3 : store R) :
  only_grads_change st1 st2 -> only_grads_change st2 st3 ->
  only_grads_change st1 st3.
Proof.
  intros [L12 F12] [L23 F23]. split; [congruence|].
  intros r t L. destruct (F12 r t L) as (t2 & L2 & D2 & R2 & E2 & S2 & G2).
  destruct (F23 r t2 L2) as (t3 & L3 & D3 & R3 & E3 & S3 & G3).
  exists t3. repeat split; try congruence; tauto.
Qed.

Lemma only_grads_accumulate (st : store R) (r : ref) (t gt g' : Tensor R) :
  st !! r = Some t -> grad t = Some gt ->
  only_grads_change st (<[r := set_grad (Some g') t]> st).
Proof.
  intros L Hg. split; [apply length_insert|].
  intros r0 t0 L0. destruct (decide (r = r0)) as [<-|Hne].
  - exists (set_grad (Some g') t).
    rewrite (lookup_assign_same _ _ _ _ L).
    assert (t0 = t) by congruence. subst t0. simpl.
    repeat split; try congruence.
  - exists t0. rewrite list_lookup_insert_ne by exact Hne.
    repeat split; auto.
Qed.

Lemma backward_only_grads (fuel : nat) :
  forall self grad_arg (st st' : store R) out,
    backward fuel self grad_arg st = (st', out) -> only_grads_change st st'.
Proof.
  induction fuel as [|fuel IH]; intros self grad_arg st st' out H.
  - injection H as <- _. apply only_grads_refl.
  - rewrite backward_S in H.
    destruct (st !! self) as [t|] eqn:L;
      [|injection H as <- _; apply only_grads_refl].
    destruct (requires_grad t);
      [|injection H as <- _; apply only_grads_refl].
    destruct (match grad_arg with Some g => _ | None => _ end) as [g|e];
      [|injection H as <- _; apply only_grads_refl].
    destruct (grad t) as [gt|] eqn:Hg;
      [|injection H as <- _; apply only_grads_refl].
    destruct (nd_add (data gt) g) as [v|e];
      [|injection H as <- _; apply only_grads_refl].
    cbv zeta in H.
    pose proof (only_grads_accumulate st self t gt (set_data v gt) L Hg)
      as F1.
    destruct (depends_on t) as [l|d];
      [|injection H as <- _; exact F1].
    eapply only_grads_trans; [exact F1|]. clear F1 L Hg.
    revert H. generalize (<[self := set_grad (Some (set_data v gt)) t]> st).
    induction l as [|d l IHl]; intros st0 H.
    + injection H as <- _. apply only_grads_refl.
    + rewrite for_each_cons_run in H.
      destruct (call_grad_fn st0 (grad_fn d) g) as [bg|e];
        [|injection H as <- _; apply only_grads_refl].
      destruct (backward fuel (tensor d) (Some bg) st0) as [st1 o1] eqn:E.
      apply IH in E. destruct o1 as [[]|e].
      * eapply only_grads_trans; [exact E|]. now apply IHl.
      * injection H as <- _. exact E.
Qed.

(** X4. Whatever its arguments and its outcome, [backward] creates and
    removes no tensor and changes no tensor's data, flag, edges or
    recorded shape; it neither removes an accumulator nor creates one
    where there is none: only the content of existing accumulators
    changes. *)
Theorem backward_changes_only_accumulators
        (fuel : nat) (self : ref) (grad_arg : option (ndarray R))
        (st : store R) :
  only_grads_change st (fst (backward fuel self grad_arg st)).
Proof.
  destruct (backward fuel self grad_arg st) as [st' out] eqn:E.
  exact (backward_only_grads fuel _ _ _ _ _ E).
Qed.

(** X5. Gradients add up over calls: two calls of [backward] on a leaf
    leave the accumulator with both seeds on top of its previous content;
    with [zero_grad] between the calls only the second seed remains, on
    zeros of the data's shape. *)
Theorem backward_calls_add_up
        (fuel : nat) (st : store R) (x : ref) (t gx : Tensor R)
        (g1 g2 v1 v2 z2 : ndarray R) :
  st !! x = Some t ->
  requires_grad t = true ->
  depends_on t = dep_list [] ->
  grad t = Some gx ->
  nd_add (data gx) g1 = Ok v1 ->
  nd_add v1 g2 = Ok v2 ->
  nd_add (zeros_like (data t)) g2 = Ok z2 ->
  (exists st2 t2,
     bind (backward (S fuel) x (Some g1))
          (fun _ => backward (S fuel) x (Some g2)) st = (st2, Ok tt) /\
     st2 !! x = Some t2 /\ option_map data (grad t2) = Some v2) /\
  (exists st3 t3,
     bind (backward (S fuel) x (Some g1))
          (fun _ => bind (zero_grad x)
                         (fun _ => backward (S fuel) x (Some g2))) st
     = (st3, Ok tt) /\
     st3 !! x = Some t3 /\ option_map data (grad t3) = Some z2).
Proof.
  intros L Hr Hd Hg H1 H2 Hz.
  set (t1 := set_grad (Some (set_data v1 gx)) t).
  assert (L1 : <[x := t1]> st !! x = Some t1)
    by (eapply lookup_assign_same; eauto).
  assert (B1 : backward (S fuel) x (Some g1) st = (<[x := t1]> st, Ok tt))
    by (now apply (backward_leaf fuel st x t gx g1 v1)).
  split.
  - eexists _, _. split; [|split].
    + unfold bind. rewrite B1.
      apply (backward_leaf fuel _ x t1 (set_data v1 gx) g2 v2 L1);
        [exact Hr|exact Hd|reflexivity|exact H2].
    + eapply lookup_assign_same; eauto.
    + reflexivity.
  - assert (L2 : <[x := zero_grad_obj t1]> (<[x := t1]> st) !! x
                 = Some (zero_grad_obj t1))
      by (eapply lookup_assign_same; eauto).
    eexists _, _. split; [|split].
    + unfold bind at 1. rewrite B1. unfold bind.
      rewrite (zero_grad_run _ _ _ L1).
      apply (backward_leaf fuel _ x (zero_grad_obj t1)
               (plain_tensor (zeros_like (data t))) g2 z2 L2);
        [exact Hr|exact Hd|reflexivity|exact Hz].
    + eapply lookup_assign_same; eauto.
    + reflexivity.
Qed.

(** X6. [backward] does not undo what it has accumulated when it fails
    later: when the closure of the first edge raises, the exception
    comes out and the store is the initial one with the seed added to the
    accumulator of the tensor [backward] was called on. *)
Theorem backward_failure_keeps_accumulation
        (fuel : nat) (st : store R) (self : ref) (t gt : Tensor R)
        (g v : ndarray R) (d : Dependency R) (l : list (Dependency R))
        (e : exn) :
  st !! self = Some t ->
  requires_grad t = true ->
  grad t = Some gt ->
  nd_add (data gt) g = Ok v ->
  depends_on t = dep_list (d :: l) ->
  call_grad_fn (<[self := set_grad (Some (set_data v gt)) t]> st)
               (grad_fn d) g = Raise e ->
  backward (S fuel) self (Some g) st
  = (<[self := set_grad (Some (set_data v gt)) t]> st, Raise e) /\
  <[self := set_grad (Some (set_data v gt)) t]> st !! self
  = Some (set_grad (Some (set_data v gt)) t) /\
  array_exn e.
Proof.
  intros L Hr Hg Hv Hd Hc. split; [|split].
  - rewrite (backward_dep_list fuel st self t gt g v (d :: l) L Hr Hd Hg Hv).
    rewrite for_each_cons_run, Hc. reflexivity.
  - eapply lookup_assign_same; eauto.
  - eapply call_grad_fn_exn; eauto.
Qed.

(** X7. The accumulation rebinds the accumulator's data to the broadcast
    sum: on a leaf, a seed whose shape broadcasts with the accumulator's
    leaves an accumulator of the broadcast shape, which need not be the
    shape of the data; a seed whose shape does not broadcast raises
    [ValueError] and changes nothing. *)
Theorem accumulator_takes_broadcast_shape
        (fuel : nat) (st : store R) (x : ref) (t gx : Tensor R)
        (g : ndarray R) :
  st !! x = Some t ->
  requires_grad t = true ->
  depends_on t = dep_list [] ->
  grad t = Some gx ->
  (forall s, broadcast_shapes (nd_shape (data gx)) (nd_shape g) = Some s ->
     exists v st' t',
       backward (S fuel) x (Some g) st = (st', Ok tt) /\
       st' !! x = Some t' /\
       option_map data (grad t') = Some v /\
       nd_shape v = s /\ data t' = data t) /\
  (broadcast_shapes (nd_shape (data gx)) (nd_shape g) = None ->
   backward (S fuel) x (Some g) st = (st, Raise ValueError)).
Proof.
  intros L Hr Hd Hg. split.
  - intros s Hs.
    assert (Hv : nd_add (data gx) g
                 = Ok (mk_ndarray s
                         (zip_with radd (broadcast_to (data gx) s)
                                        (broadcast_to g s))))
      by (unfold nd_add, nd_binop; now rewrite Hs).
    eexists _, _, _. split; [|split; [|split; [|split]]].
    + exact (backward_leaf fuel st x t gx g _ L Hr Hd Hg Hv).
    + eapply lookup_assign_same; eauto.
    + reflexivity.
    + reflexivity.
    + reflexivity.
  - intros Hs. rewrite backward_S, L, Hr, Hg.
    unfold nd_add, nd_binop. now rewrite Hs.
Qed.

End OnlyGrads.

Lemma backward_calls_add_up_witness :
  (exists st2 t2,
     bind (backward 1 0 (Some (np_array 1%Z)))
          (fun _ => backward 1 0 (Some (np_array 10%Z))) Examples.st_scalar
     = (st2, Ok tt) /\
     st2 !! 0 = Some t2 /\
     option_map data (grad t2) = Some (np_array 11%Z)) /\
  (exists st3 t3,
     bind (backward 1 0 (Some (np_array 1%Z)))
          (fun _ => bind (zero_grad 0)
                         (fun _ => backward 1 0 (Some (np_array 10%Z))))
          Examples.st_scalar
     = (st3, Ok tt) /\
     st3 !! 0 = Some t3 /\
     option_map data (grad t3) = Some (np_array 10%Z)).
Proof.
  exact (backward_calls_add_up 0 Examples.st_scalar 0
           (Tensor_init (np_array 2%Z) true None)
           (plain_tensor (zeros_like (np_array 2%Z)))
           (np_array 1%Z) (np_array 10%Z)
           (np_array 1%Z) (np_array 11%Z) (np_array 10%Z)
           eq_refl eq_refl eq_refl eq_refl eq_refl eq_refl eq_refl).
Defined.

Lemma backward_failure_keeps_accumulation_witness :
  let st := Examples.run (_matmul 0 1) Examples.st_AB in
  snd (backward 1 2 (Some (np_array 1%Z)) st) = Raise ValueError /\
  Examples.grad_data (fst (backward 1 2 (Some (np_array 1%Z)) st)) 2
  = Some (mk_ndarray [2; 2] [1; 1; 1; 1]%Z) /\
  Examples.grad_data (fst (backward 1 2 (Some (np_array 1%Z)) st)) 0
  = Some (mk_ndarray [2; 3] [0; 0; 0; 0; 0; 0]%Z).
Proof.
  intros st.
  pose proof (backward_failure_keeps_accumulation 0 st 2
                (Tensor_init (mk_ndarray [2; 2] [4; 5; 10; 11]%Z) true
                   (Some (dep_list [mkDependency 0 (matmul_grad_fn1 1);
                                    mkDependency 1 (matmul_grad_fn2 0)])))
                (plain_tensor (mk_ndarray [2; 2] [0; 0; 0; 0]%Z))
                (np_array 1%Z) (mk_ndarray [2; 2] [1; 1; 1; 1]%Z)
                (mkDependency 0 (matmul_grad_fn1 1))
                [mkDependency 1 (matmul_grad_fn2 0)] ValueError
                eq_refl eq_refl eq_refl eq_refl eq_refl eq_refl)
    as [E _].
  rewrite E. repeat split.
Defined.

Lemma accumulator_takes_broadcast_shape_witness :
  exists v st' t',
    backward 1 0 (Some (mk_ndarray [2; 3] [1; 2; 3; 4; 5; 6]%Z))
             Examples.st_vec = (st', Ok tt) /\
    st' !! 0 = Some t' /\
    option_map data (grad t') = Some v /\
    nd_shape v = [2; 3] /\
    data t' = np_array_list [1; 2; 3]%Z.
Proof.
  exact (proj1 (accumulator_takes_broadcast_shape 0 Examples.st_vec 0
                  (Tensor_init (np_array_list [1; 2; 3]%Z) true None)
                  (plain_tensor (zeros_like (np_array_list [1; 2; 3]%Z)))
                  (mk_ndarray [2; 3] [1; 2; 3; 4; 5; 6]%Z)
                  eq_refl eq_refl eq_refl eq_refl)
               [2; 3] eq_refl).
Defined.

Section Operations.
Context {R : Type} `{!Scalar R}.

(** The run [p] of an operation from [st] only appended tensors, and its
    result, when there is one, is the last of them. *)
Local Abbreviation appends st p :=
  (exists new : store R,
      fst p = st ++ new /\
      forall r : ref, snd p = Ok r ->
                      new <> [] /\ r = length (st ++ new) - 1).













End Operations.

Section Differentiability.
Context {R : Type} `{!Scalar R}.

(** [o] names a tensor of [st] that requires a gradient. *)
Local Abbreviation differentiable st o :=
  (exists t : Tensor R, st !! o = Some t /\ requires_grad t = true).

Lemma Exists_one (st : store R) (o : ref) (t : Tensor R) :
  st !! o = Some t ->
  requires_grad t = true <-> Exists (fun o => differentiable st o) [o].
Proof.
  intros L. rewrite Exists_cons, Exists_nil. split.
  - intros Hr. left. eauto.
  - intros [(t' & L' & Hr)|[]]. congruence.
Qed.

Lemma Exists_two (st : store R) (o1 o2 : ref) (a b : Tensor R) :
  st !! o1 = Some a -> st !! o2 = Some b ->
  requires_grad a || requires_grad b = true
  <-> Exists (fun o => differentiable st o) [o1; o2].
Proof.
  intros L1 L2. rewrite orb_true_iff, !Exists_cons, Exists_nil. split.
  - intros [Hr|Hr]; [left|right; left]; eauto.
  - intros [(t' & L' & Hr)|[(t' & L' & Hr)|[]]]; [left|right]; congruence.
Qed.

(** The tensor that a successful operation returns. *)
Lemma run_op_result (c : op_call) (st st' : store R) (r : ref) :
  run_op c st = (st', Ok r) ->
  exists d rg deps,
    st' !! r = Some (Tensor_init d rg (Some deps)) /\
    (rg = true <-> Exists (fun o => differentiable st o) (operands c)) /\
    (rg = false -> deps = dep_list []).
Proof.
  destruct c; simpl; intros H.
  - unfold _tensor_sum, bind, deref, Tensor_new, alloc in H.
    destruct (st !! t) as [tt|] eqn:L; [|discriminate].
    injection H as <- <-. eexists _, _, _.
    split; [apply lookup_alloc_new|].
    split; [now apply Exists_one|]. now intros ->.
  - unfold _add, bind, deref, lift, Tensor_new, alloc in H.
    destruct (st !! t1) as [a|] eqn:L1; [|discriminate].
    destruct (st !! t2) as [b|] eqn:L2; [|discriminate].
    destruct (nd_add (data a) (data b)) as [d|]; [|discriminate].
    injection H as <- <-. eexists _, _, _.
    split; [apply lookup_alloc_new|].
    split; [now apply Exists_two|].
    intros Hrg. apply orb_false_elim in Hrg as [-> ->]. reflexivity.
  - unfold _multiply, bind, deref, lift, Tensor_new, alloc in H.
    destruct (st !! t1) as [a|] eqn:L1; [|discriminate].
    destruct (st !! t2) as [b|] eqn:L2; [|discriminate].
    destruct (nd_mul (data a) (data b)) as [d|]; [|discriminate].
    injection H as <- <-. eexists _, _, _.
    split; [apply lookup_alloc_new|].
    split; [now apply Exists_two|].
    intros Hrg. apply orb_false_elim in Hrg as [-> ->]. reflexivity.
  - unfold _neg, bind, deref, Tensor_new, alloc in H.
    destruct (st !! t) as [tt|] eqn:L; [|discriminate].
    injection H as <- <-. eexists _, _, _.
    split; [apply lookup_alloc_new|].
    split; [now apply Exists_one|]. now intros ->.
  - unfold _sub in H. unfold bind at 1 in H.
    unfold _neg, bind, deref, Tensor_new, alloc in H.
    destruct (st !! t2) as [b|] eqn:L2; [|discriminate].
    set (nt := Tensor_init (nd_neg (data b)) (requires_grad b)
                 (Some (if requires_grad b
                        then dep_list [mkDependency t2 neg_grad_fn]
                        else dep_list []))) in H.
    unfold _add, bind, deref, lift, Tensor_new, alloc in H.
    destruct ((st ++ [nt]) !! t1) as [a|] eqn:L1; [|discriminate].
    rewrite lookup_alloc_new in H.
    destruct (nd_add (data a) (data nt)) as [d|]; [|discriminate].
    injection H as <- <-. eexists _, _, _.
    split; [apply lookup_alloc_new|].
    assert (Hnt : requires_grad nt = requires_grad b)
      by apply Tensor_init_fields.
    split.
    + rewrite orb_true_iff, !Exists_cons, Exists_nil, Hnt. split.
      * intros [Hr|Hr]; [|right; left; eauto].
        destruct (decide (t1 < length st)) as [Hlt|Hge].
        -- left. exists a. split; [|exact Hr].
           now rewrite lookup_app_l in L1 by exact Hlt.
        -- right; left. exists b. split; [exact L2|].
           assert (t1 = length st).
           { apply lookup_lt_Some in L1. rewrite length_app in L1.
             simpl in L1. lia. }
           subst t1. rewrite lookup_alloc_new in L1.
           injection L1 as <-. congruence.
      * intros [(t' & L' & Hr)|[(t' & L' & Hr)|[]]].
        -- left. rewrite (lookup_alloc_old _ _ _ _ L') in L1. congruence.
        -- right. congruence.
    + intros Hrg. apply orb_false_elim in Hrg as [-> ->]. reflexivity.
  - unfold _matmul, bind, deref, lift, Tensor_new, alloc in H.
    destruct (st !! t1) as [a|] eqn:L1; [|discriminate].
    destruct (st !! t2) as [b|] eqn:L2; [|discriminate].
    destruct (nd_matmul (data a) (data b)) as [d|]; [|discriminate].
    injection H as <- <-. eexists _, _, _.
    split; [apply lookup_alloc_new|].
    split; [now apply Exists_two|].
    intros Hrg. apply orb_false_elim in Hrg as [-> ->]. reflexivity.
  - unfold _slice, bind, deref, lift, Tensor_new, alloc in H.
    destruct (st !! t) as [tt|] eqn:L; [|discriminate].
    destruct (nd_getitem (data tt) idxs) as [d|]; [|discriminate].
    injection H as <- <-. eexists _, _, _.
    split; [apply lookup_alloc_new|].
    split; [now apply Exists_one|]. now intros ->.
Qed.

(** X9. The tensor returned by a successful operation requires a
    gradient exactly when one of its operands does.  If it does, it
    comes with a zero accumulator of the shape of its data; if it does
    not, it has no accumulator and no edge, and [backward] on it fails
    with NotDifferentiable.  Its recorded shape is the shape of its
    data. *)
Theorem result_differentiable_iff_operand
        (c : op_call) (st st' : store R) (r : ref) :
  run_op c st = (st', Ok r) ->
  exists t',
    st' !! r = Some t' /\
    shape t' = nd_shape (data t') /\
    (requires_grad t' = true
     <-> Exists (fun o => differentiable st o) (operands c)) /\
    (requires_grad t' = true -> zero_initialized t') /\
    (requires_grad t' = false ->
     grad t' = None /\ depends_on t' = dep_list [] /\
     forall fuel g,
       backward (S fuel) r g st' = (st', Raise NotDifferentiable)).
Proof.
  intros H. destruct (run_op_result c st st' r H)
    as (d & rg & deps & L & Hiff & Hdeps).
  exists (Tensor_init d rg (Some deps)). split; [exact L|].
  destruct rg.
  - split; [reflexivity|]. split; [exact Hiff|]. split; [|discriminate].
    intros _. apply (zero_grad_obj_initialized
                       (mkTensor d true (or_empty (Some deps))
                                 (nd_shape d) None)).
  - split; [reflexivity|]. split; [exact Hiff|]. split; [discriminate|].
    intros _. rewrite (Hdeps eq_refl). repeat split.
    intros fuel g. rewrite backward_S, L. reflexivity.
Qed.

End Differentiability.

Lemma result_differentiable_iff_operand_witness :
  exists t',
    Examples.st_mul !! 2 = Some t' /\
    requires_grad t' = true /\ zero_initialized t'.
Proof.
  destruct (result_differentiable_iff_operand (call_multiply 0 1)
              Examples.st_ab Examples.st_mul 2 eq_refl)
    as (t' & L & _ & Hiff & Hz & _).
  assert (Hr : requires_grad t' = true).
  { apply Hiff. apply Exists_cons. left.
    exists (Tensor_init (np_array 3%Z) true None). split; reflexivity. }
  exists t'. split; [exact L|]. split; [exact Hr|exact (Hz Hr)].
Defined.

Section Acyclic.
Context {R : Type} `{!Scalar R}.

Lemma edges_back_frame (st st' : store R) :
  frame st st' -> edges_back st -> edges_back st'.
Proof.
  intros [Hlen F] Hb r t' L'.
  assert (Hlt : r < length st)
    by (rewrite <- Hlen; eapply lookup_lt_Some; eauto).
  destruct (lookup_lt_is_Some_2 st r Hlt) as [t L].
  destruct (F r t L) as (t1 & L1 & _ & D1 & _).
  assert (t1 = t') by congruence. subst t1.
  unfold edge_targets. rewrite D1. exact (Hb r t L).
Qed.

Lemma edges_back_alloc (st : store R) (t : Tensor R) :
  edges_back st ->
  Forall (fun r' => r' < length st) (edge_targets t) ->
  edges_back (st ++ [t]).
Proof.
  intros Hb Ht r u L.
  destruct (decide (r < length st)) as [Hlt|Hge].
  - rewrite lookup_app_l in L by exact Hlt. exact (Hb r u L).
  - assert (r = length st).
    { apply lookup_lt_Some in L. rewrite length_app in L. simpl in L. lia. }
    subst r. rewrite lookup_alloc_new in L. injection L as <-. exact Ht.
Qed.

Lemma targets_unary (st : store R) (t : ref) (tt : Tensor R)
      (d : ndarray R) (f : GradFn R) :
  st !! t = Some tt ->
  Forall (fun r' => r' < length st)
    (edge_targets (Tensor_init d (requires_grad tt)
                     (Some (if requires_grad tt
                            then dep_list [mkDependency t f]
                            else dep_list [])))).
Proof.
  intros L. apply lookup_lt_Some in L. unfold edge_targets.
  rewrite (proj1 (proj2 (Tensor_init_fields d _ _))).
  destruct (requires_grad tt); simpl; repeat constructor. exact L.
Qed.

Lemma targets_binary (st : store R) (t1 t2 : ref) (a b : Tensor R)
      (d : ndarray R) (rg : bool) (f1 f2 : GradFn R) :
  st !! t1 = Some a -> st !! t2 = Some b ->
  Forall (fun r' => r' < length st)
    (edge_targets
       (Tensor_init d rg
          (Some (dep_list
             (append_if (requires_grad b) (mkDependency t2 f2)
                (append_if (requires_grad a) (mkDependency t1 f1) [])))))).
Proof.
  intros L1 L2. apply lookup_lt_Some in L1. apply lookup_lt_Some in L2.
  unfold edge_targets.
  rewrite (proj1 (proj2 (Tensor_init_fields d _ _))), or_empty_list.
  unfold append_if.
  destruct (requires_grad a), (requires_grad b); simpl;
    repeat constructor; assumption.
Qed.

Lemma _tensor_sum_edges_back (st st' : store R) t r :
  edges_back st -> _tensor_sum t st = (st', Ok r) -> edges_back st'.
Proof.
  intros Hb H. unfold _tensor_sum, bind, deref, Tensor_new, alloc in H.
  destruct (st !! t) as [tt|] eqn:L; [|discriminate].
  injection H as <- _. apply edges_back_alloc; [exact Hb|].
  now apply targets_unary.
Qed.

Lemma _neg_edges_back (st st' : store R) t r :
  edges_back st -> _neg t st = (st', Ok r) -> edges_back st'.
Proof.
  intros Hb H. unfold _neg, bind, deref, Tensor_new, alloc in H.
  destruct (st !! t) as [tt|] eqn:L; [|discriminate].
  injection H as <- _. apply edges_back_alloc; [exact Hb|].
  now apply targets_unary.
Qed.

Lemma _add_edges_back (st st' : store R) t1 t2 r :
  edges_back st -> _add t1 t2 st = (st', Ok r) -> edges_back st'.
Proof.
  intros Hb H. unfold _add, bind, deref, lift, Tensor_new, alloc in H.
  destruct (st !! t1) as [a|] eqn:L1; [|discriminate].
  destruct (st !! t2) as [b|] eqn:L2; [|discriminate].
  destruct (nd_add (data a) (data b)) as [d|]; [|discriminate].
  injection H as <- _. apply edges_back_alloc; [exact Hb|].
  now apply (targets_binary st t1 t2 a b).
Qed.

Lemma _multiply_edges_back (st st' : store R) t1 t2 r :
  edges_back st -> _multiply t1 t2 st = (st', Ok r) -> edges_back st'.
Proof.
  intros Hb H. unfold _multiply, bind, deref, lift, Tensor_new, alloc in H.
  destruct (st !! t1) as [a|] eqn:L1; [|discriminate].
  destruct (st !! t2) as [b|] eqn:L2; [|discriminate].
  destruct (nd_mul (data a) (data b)) as [d|]; [|discriminate].
  injection H as <- _. apply edges_back_alloc; [exact Hb|].
  now apply (targets_binary st t1 t2 a b).
Qed.

Lemma _matmul_edges_back (st st' : store R) t1 t2 r :
  edges_back st -> _matmul t1 t2 st = (st', Ok r) -> edges_back st'.
Proof.
  intros Hb H. unfold _matmul, bind, deref, lift, Tensor_new, alloc in H.
  destruct (st !! t1) as [a|] eqn:L1; [|discriminate].
  destruct (st !! t2) as [b|] eqn:L2; [|discriminate].
  destruct (nd_matmul (data a) (data b)) as [d|]; [|discriminate].
  injection H as <- _. apply edges_back_alloc; [exact Hb|].
  now apply (targets_binary st t1 t2 a b).
Qed.

Lemma _sub_edges_back (st st' : store R) t1 t2 r :
  edges_back st -> _sub t1 t2 st = (st', Ok r) -> edges_back st'.
Proof.
  intros Hb H. unfold _sub in H. unfold bind at 1 in H.
  destruct (_neg t2 st) as [st1 [n|e]] eqn:E; [|discriminate].
  eapply _add_edges_back; [|exact H]. eapply _neg_edges_back; eauto.
Qed.

Lemma _slice_edges_back (st st' : store R) t idxs r :
  edges_back st -> _slice t idxs st = (st', Ok r) -> edges_back st'.
Proof.
  intros Hb H. unfold _slice, bind, deref, lift, Tensor_new, alloc in H.
  destruct (st !! t) as [tt|] eqn:L; [|discriminate].
  destruct (nd_getitem (data tt) idxs) as [d|]; [|discriminate].
  injection H as <- _. apply edges_back_alloc; [exact Hb|].
  apply lookup_lt_Some in L. unfold edge_targets.
  rewrite (proj1 (proj2 (Tensor_init_fields d _ _))).
  destruct (requires_grad tt); simpl; repeat constructor. exact L.
Qed.

Lemma zero_grad_edges_back (st st' : store R) t :
  edges_back st -> zero_grad t st = (st', Ok tt) -> edges_back st'.
Proof.
  intros Hb H. unfold zero_grad, bind, deref, assign in H.
  destruct (st !! t) as [u|] eqn:L; [|discriminate].
  injection H as <-. eapply edges_back_frame; [|exact Hb].
  apply (frame_assign st t u); [exact L|reflexivity..|discriminate].
Qed.

Lemma built_edges_back (st : store R) : built st -> edges_back st.
Proof.
  induction 1;
    eauto using _tensor_sum_edges_back, _neg_edges_back, _add_edges_back,
                _multiply_edges_back, _matmul_edges_back, _sub_edges_back,
                _slice_edges_back, zero_grad_edges_back.
  - intros r t L. destruct r; discriminate.
  - unfold Tensor_new, alloc. simpl.
    apply edges_back_alloc; [assumption|].
    unfold edge_targets.
    rewrite (proj1 (proj2 (Tensor_init_fields d rg None))). constructor.
  - eapply edges_back_frame; [|eassumption].
    eapply backward_frame; eauto.
Qed.

(** With every edge leading backwards, [backward] called on the tensor
    [self] recurses to a depth of at most [self + 1]. *)
Lemma backward_within_depth (fuel : nat) :
  forall self grad_arg (st : store R),
    edges_back st -> self < fuel ->
    snd (backward fuel self grad_arg st) <> Raise RecursionError.
Proof.
  induction fuel as [|fuel IH]; intros self grad_arg st Hb Hlt; [lia|].
  rewrite backward_S.
  destruct (st !! self) as [t|] eqn:L; [|discriminate].
  destruct (requires_grad t); [|discriminate].
  destruct (match grad_arg with Some g => _ | None => _ end) as [g|e] eqn:Hs.
  2:{ simpl. destruct grad_arg; [discriminate|].
      destruct (shape t); [discriminate|]. injection Hs as <-. discriminate. }
  destruct (grad t) as [gt|] eqn:Hg; [|discriminate].
  destruct (nd_add (data gt) g) as [v|e] eqn:Hv.
  2:{ simpl. intros [= ->]. apply nd_binop_exn in Hv.
      destruct Hv as [|[|[|]]]; discriminate. }
  cbv zeta.
  assert (F1 : frame st (<[self := set_grad (Some (set_data v gt)) t]> st))
    by (apply (frame_assign st self t); [exact L|reflexivity..|discriminate]).
  pose proof (Hb self t L) as Ht. unfold edge_targets in Ht.
  destruct (depends_on t) as [l|d]; [|discriminate].
  assert (Hb1 : edges_back (<[self := set_grad (Some (set_data v gt)) t]> st))
    by (eapply edges_back_frame; eauto).
  assert (Hl : Forall (fun d => tensor d < fuel) l).
  { apply Forall_map in Ht. eapply Forall_impl; [exact Ht|].
    simpl. intros d Hd. lia. }
  clear Ht F1 L Hg Hb. revert Hb1.
  generalize (<[self := set_grad (Some (set_data v gt)) t]> st).
  induction Hl as [|d l Hd Hl IHl]; intros st0 Hb0; [discriminate|].
  rewrite for_each_cons_run.
  destruct (call_grad_fn st0 (grad_fn d) g) as [bg|e] eqn:Hc.
  2:{ simpl. intros [= ->]. apply call_grad_fn_exn in Hc.
      destruct Hc as [|[|[|]]]; discriminate. }
  pose proof (IH (tensor d) (Some bg) st0 Hb0 Hd) as Hrec.
  destruct (backward fuel (tensor d) (Some bg) st0) as [st1 o1] eqn:E.
  destruct o1 as [[]|e]; [|exact Hrec].
  apply IHl. eapply edges_back_frame; [|exact Hb0].
  eapply backward_frame; eauto.
Qed.

(** X10. In every store built by the constructors, each edge, whether in
    a list or stored bare by a slice, leads to a tensor created before
    the one that holds it: the graph has no cycle. *)
Theorem built_graph_is_acyclic (st : store R) :
  built st ->
  forall r t, st !! r = Some t ->
    Forall (fun r' => r' < r) (edge_targets t) /\
    Forall (fun r' => r' < length st) (edge_targets t).
Proof.
  intros Hb r t L. pose proof (built_edges_back st Hb r t L) as H.
  split; [exact H|].
  apply lookup_lt_Some in L.
  eapply Forall_impl; [exact H|]. simpl. intros r' Hr. lia.
Qed.

(** X11. On a store built by the constructors the recursion of
    [backward] is bounded: called on tensor number [self], it never
    needs more than [self + 1] nested calls, so with a recursion limit
    of the number of tensors no call ends in [RecursionError]. *)
Theorem backward_recursion_is_bounded
        (st : store R) (fuel : nat) (self : ref)
        (grad_arg : option (ndarray R)) :
  built st ->
  self < fuel ->
  snd (backward fuel self grad_arg st) <> Raise RecursionError.
Proof.
  intros Hb Hlt. apply backward_within_depth; [|exact Hlt].
  now apply built_edges_back.
Qed.

End Acyclic.

Lemma built_graph_is_acyclic_witness :
  Forall (fun r' => r' < 2)
    (edge_targets
       (Tensor_init (np_array 6%Z) true
          (Some (dep_list [mkDependency 0 (multiply_grad_fn1 0 1)])))) /\
  Forall (fun r' => r' < length Examples.st_mul)
    (edge_targets
       (Tensor_init (np_array 6%Z) true
          (Some (dep_list [mkDependency 0 (multiply_grad_fn1 0 1)])))).
Proof.
  exact (built_graph_is_acyclic Examples.st_mul st_mul_built 2 _ eq_refl).
Defined.

Lemma backward_recursion_is_bounded_witness :
  snd (backward 3 2 None Examples.st_mul) <> Raise RecursionError.
Proof.
  apply (backward_recursion_is_bounded Examples.st_mul 3 2 None
           st_mul_built).
  lia.
Defined.

Section Elementwise.
Context {R : Type} `{!Scalar R}.

(** On arrays of one shape a binary operation works element by
    element. *)
Lemma nd_binop_elementwise (f : R -> R -> R) (a b : ndarray R) :
  nd_shape a = nd_shape b -> nd_wf a -> nd_wf b ->
  nd_binop f a b
  = Ok (mk_ndarray (nd_shape a) (zip_with f (nd_elems a) (nd_elems b))).
Proof.
  intros Hs Ha Hb. unfold nd_binop.
  rewrite <- Hs, broadcast_shapes_refl, (broadcast_to_same a Ha).
  rewrite Hs, (broadcast_to_same b Hb). reflexivity.
Qed.

Lemma nd_wf_zip (f : R -> R -> R) (a b : ndarray R) :
  nd_shape a = nd_shape b -> nd_wf a -> nd_wf b ->
  nd_wf (mk_ndarray (nd_shape a) (zip_with f (nd_elems a) (nd_elems b))).
Proof.
  unfold nd_wf. simpl. intros Hs Ha Hb.
  rewrite length_zip_with, Ha, Hb, Hs. lia.
Qed.

Lemma call_multiply_grad_fn1 (st : store R) t1 t2 a b g :
  st !! t1 = Some a -> st !! t2 = Some b ->
  call_grad_fn st (multiply_grad_fn1 t1 t2) g
  = rbind (nd_mul g (data b)) (reduce_grad a).
Proof.
  intros L1 L2. simpl. rewrite (lookup_tensor_Some _ _ _ L2). simpl.
  destruct (nd_mul g (data b)); simpl; [|reflexivity].
  now rewrite (lookup_tensor_Some _ _ _ L1).
Qed.

Lemma call_multiply_grad_fn1' (st : store R) t1 t2 a b g :
  st !! t1 = Some a -> st !! t2 = Some b ->
  call_grad_fn st (multiply_grad_fn1' t1 t2) g
  = rbind (nd_mul g (data a)) (reduce_grad b).
Proof.
  intros L1 L2. simpl. rewrite (lookup_tensor_Some _ _ _ L1). simpl.
  destruct (nd_mul g (data a)); simpl; [|reflexivity].
  now rewrite (lookup_tensor_Some _ _ _ L2).
Qed.

(** X12. For a differentiable leaf [x] and [y = -x], the data of [y] is
    the negated data of [x], and [y.backward(seed)] with a seed of that
    shape succeeds and adds the negated seed to [x.grad]. *)
Theorem neg_backward
        (fuel : nat) (st : store R) (x : ref) (tx gx : Tensor R)
        (seed : ndarray R) :
  st !! x = Some tx ->
  requires_grad tx = true ->
  depends_on tx = dep_list [] ->
  grad tx = Some gx ->
  nd_shape (data gx) = nd_shape (data tx) ->
  nd_shape seed = nd_shape (data tx) ->
  exists ty g1 st2 tx',
    _neg x st = (st ++ [ty], Ok (length st)) /\
    data ty = nd_neg (data tx) /\
    depends_on ty = dep_list [mkDependency x neg_grad_fn] /\
    nd_add (data gx) (nd_neg seed) = Ok g1 /\
    backward (S (S fuel)) (length st) (Some seed) (st ++ [ty])
    = (st2, Ok tt) /\
    st2 !! x = Some tx' /\
    option_map data (grad tx') = Some g1.
Proof.
  intros Hx Hrg Hleaf Hg Hgs Hseed.
  assert (Hlt : x < length st) by (eapply lookup_lt_Some; eauto).
  destruct (nd_binop_same_shape radd (data gx) (nd_neg seed))
    as [g1 [Hg1 _]]; [simpl; congruence|].
  destruct (nd_binop_same_shape radd (zeros_like (nd_neg (data tx))) seed)
    as [vy [Hvy _]]; [simpl; congruence|].
  set (ty := Tensor_init (nd_neg (data tx)) true
               (Some (dep_list [mkDependency x (neg_grad_fn (R:=R))]))).
  set (ty' := set_grad
                (Some (set_data vy
                         (plain_tensor (zeros_like (nd_neg (data tx))))))
                ty).
  set (st1 := <[length st := ty']> (st ++ [ty])).
  set (tx1 := set_grad (Some (set_data g1 gx)) tx).
  assert (L1 : st1 !! x = Some tx).
  { unfold st1. rewrite list_lookup_insert_ne by lia.
    now apply lookup_alloc_old. }
  exists ty, g1, (<[x := tx1]> st1), tx1.
  split; [|split; [|split; [|split; [|split; [|split]]]]].
  - unfold _neg, bind. rewrite (deref_Some _ _ _ Hx). cbn beta iota.
    rewrite Hrg. reflexivity.
  - reflexivity.
  - reflexivity.
  - exact Hg1.
  - rewrite (backward_dep_list (S fuel) (st ++ [ty]) (length st) ty
               (plain_tensor (zeros_like (nd_neg (data tx)))) seed vy _
               (lookup_alloc_new st ty) eq_refl eq_refl eq_refl Hvy).
    change (<[length st := _]> (st ++ [ty])) with st1.
    rewrite (for_each_edge_ok (S fuel) seed (nd_neg seed) x _ _ st1
               (<[x := tx1]> st1)).
    + reflexivity.
    + reflexivity.
    + exact (backward_leaf fuel st1 x tx gx (nd_neg seed) g1
               L1 Hrg Hleaf Hg Hg1).
  - eapply lookup_assign_same; eauto.
  - reflexivity.
Qed.

(** X13. The chain rule for a product of a tensor with itself: for a
    differentiable leaf [x] and [y = x * x], [y.backward(seed)] with a
    seed of the shape of [x] succeeds; each of the two edges contributes
    the element-wise product of the seed and the data of [x], and
    [x.grad] ends with both added to its previous content. *)
Theorem multiply_self_backward
        (fuel : nat) (st : store R) (x : ref) (tx gx : Tensor R)
        (seed : ndarray R) :
  st !! x = Some tx ->
  requires_grad tx = true ->
  depends_on tx = dep_list [] ->
  grad tx = Some gx ->
  shape tx = nd_shape (data tx) ->
  nd_shape (data gx) = nd_shape (data tx) ->
  nd_shape seed = nd_shape (data tx) ->
  nd_wf (data tx) -> nd_wf seed ->
  let p := mk_ndarray (nd_shape seed)
             (zip_with rmul (nd_elems seed) (nd_elems (data tx))) in
  exists ty g1 g2 st2 tx',
    _multiply x x st = (st ++ [ty], Ok (length st)) /\
    call_grad_fn (st ++ [ty]) (multiply_grad_fn1 x x) seed = Ok p /\
    call_grad_fn (st ++ [ty]) (multiply_grad_fn1' x x) seed = Ok p /\
    nd_add (data gx) p = Ok g1 /\
    nd_add g1 p = Ok g2 /\
    backward (S (S fuel)) (length st) (Some seed) (st ++ [ty])
    = (st2, Ok tt) /\
    st2 !! x = Some tx' /\
    option_map data (grad tx') = Some g2.
Proof.
  intros Hx Hrg Hleaf Hg Hshape Hgs Hseed Hwx Hw p.
  assert (Hlt : x < length st) by (eapply lookup_lt_Some; eauto).
  assert (Hp : nd_mul seed (data tx) = Ok p)
    by (apply nd_binop_elementwise; [congruence|exact Hw|exact Hwx]).
  assert (Hpw : nd_wf p) by (apply nd_wf_zip; [congruence|exact Hw|exact Hwx]).
  destruct (nd_binop_same_shape rmul (data tx) (data tx) eq_refl)
    as [d [Hd Hds]].
  destruct (nd_binop_same_shape radd (data gx) p) as [g1 [Hg1 Hg1s]];
    [simpl; congruence|].
  destruct (nd_binop_same_shape radd g1 p) as [g2 [Hg2 _]];
    [simpl; congruence|].
  destruct (nd_binop_same_shape radd (zeros_like d) seed) as [vy [Hvy _]];
    [simpl; congruence|].
  assert (Hred : forall g', reduce_grad (set_grad g' tx) p = Ok p).
  { intros g'. apply reduce_grad_same_shape; simpl.
    - unfold nd_ndim. now rewrite Hshape.
    - congruence.
    - exact Hpw. }
  assert (Hcall : forall (st0 : store R) g',
             st0 !! x = Some (set_grad g' tx) ->
             call_grad_fn st0 (multiply_grad_fn1 x x) seed = Ok p /\
             call_grad_fn st0 (multiply_grad_fn1' x x) seed = Ok p).
  { intros st0 g' L0.
    rewrite (call_multiply_grad_fn1 _ _ _ _ _ _ L0 L0).
    rewrite (call_multiply_grad_fn1' _ _ _ _ _ _ L0 L0).
    simpl. rewrite Hp. simpl. split; apply Hred. }
  set (ty := Tensor_init d true
               (Some (dep_list [mkDependency x (multiply_grad_fn1 x x);
                                mkDependency x (multiply_grad_fn1' x x)]))).
  set (ty' := set_grad (Some (set_data vy (plain_tensor (zeros_like d)))) ty).
  set (tx1 := set_grad (Some (set_data g1 gx)) tx).
  set (tx2 := set_grad (Some (set_data g2 (set_data g1 gx))) tx1).
  set (st1 := <[length st := ty']> (st ++ [ty])).
  assert (L0 : (st ++ [ty]) !! x = Some (set_grad (grad tx) tx)).
  { rewrite (lookup_alloc_old _ _ _ _ Hx). now destruct tx. }
  assert (L1 : st1 !! x = Some tx).
  { unfold st1. rewrite list_lookup_insert_ne by lia.
    now apply lookup_alloc_old. }
  assert (L1' : st1 !! x = Some (set_grad (grad tx) tx))
    by (rewrite L1; now destruct tx).
  assert (L2 : <[x := tx1]> st1 !! x = Some tx1)
    by (eapply lookup_assign_same; eauto).
  exists ty, g1, g2, (<[x := tx2]> (<[x := tx1]> st1)), tx2.
  split; [|split; [|split; [|split; [|split; [|split; [|split]]]]]].
  - unfold _multiply, bind, lift.
    rewrite (deref_Some _ _ _ Hx). cbn beta iota.
    rewrite (deref_Some _ _ _ Hx). cbn beta iota.
    unfold nd_mul. rewrite Hd, Hrg. reflexivity.
  - exact (proj1 (Hcall _ _ L0)).
  - exact (proj2 (Hcall _ _ L0)).
  - exact Hg1.
  - exact Hg2.
  - rewrite (backward_dep_list (S fuel) (st ++ [ty]) (length st) ty
               (plain_tensor (zeros_like d)) seed vy _
               (lookup_alloc_new st ty) eq_refl eq_refl eq_refl Hvy).
    change (<[length st := _]> (st ++ [ty])) with st1.
    rewrite (for_each_edge_ok (S fuel) seed p x _ _ st1 (<[x := tx1]> st1)).
    + rewrite (for_each_edge_ok (S fuel) seed p x _ _ (<[x := tx1]> st1)
                 (<[x := tx2]> (<[x := tx1]> st1))).
      * reflexivity.
      * exact (proj2 (Hcall _ _ L2)).
      * exact (backward_leaf fuel (<[x := tx1]> st1) x tx1 (set_data g1 gx)
                 p g2 L2 Hrg Hleaf eq_refl Hg2).
    + exact (proj1 (Hcall _ _ L1')).
    + exact (backward_leaf fuel st1 x tx gx p g1 L1 Hrg Hleaf Hg Hg1).
  - eapply lookup_assign_same; eauto.
  - reflexivity.
Qed.

End Elementwise.

Lemma neg_backward_witness :
  exists st2 tx',
    backward 2 1 (Some (np_array 5%Z))
             (Examples.run (_neg 0) Examples.st_scalar) = (st2, Ok tt) /\
    st2 !! 0 = Some tx' /\
    option_map data (grad tx') = Some (np_array (-5)%Z).
Proof.
  destruct (neg_backward 0 Examples.st_scalar 0
              (Tensor_init (np_array 2%Z) true None)
              (plain_tensor (zeros_like (np_array 2%Z)))
              (np_array 5%Z)
              eq_refl eq_refl eq_refl eq_refl eq_refl eq_refl)
    as (ty & g1 & st2 & tx' & Hn & _ & _ & H1 & Hb & L & G).
  exists st2, tx'. split; [|split; [exact L|]].
  - unfold Examples.run. rewrite Hn. exact Hb.
  - rewrite G. vm_compute in H1. injection H1 as <-. reflexivity.
Defined.

Lemma multiply_self_backward_witness :
  exists st2 tx',
    backward 2 1 (Some (np_array 1%Z))
             (Examples.run (_multiply 0 0) Examples.st_scalar)
    = (st2, Ok tt) /\
    st2 !! 0 = Some tx' /\
    option_map data (grad tx') = Some (np_array 4%Z).
Proof.
  destruct (multiply_self_backward 0 Examples.st_scalar 0
              (Tensor_init (np_array 2%Z) true None)
              (plain_tensor (zeros_like (np_array 2%Z)))
              (np_array 1%Z)
              eq_refl eq_refl eq_refl eq_refl eq_refl eq_refl eq_refl
              eq_refl eq_refl)
    as (ty & g1 & g2 & st2 & tx' & Hm & _ & _ & H1 & H2 & Hb & L & G).
  exists st2, tx'. split; [|split; [exact L|]].
  - unfold Examples.run. rewrite Hm. exact Hb.
  - rewrite G. vm_compute in H1. injection H1 as <-.
    vm_compute in H2. injection H2 as <-. reflexivity.
Defined.

Section SumBackward.
Context {R : Type} `{!Scalar R}.

Lemma size_of_ones (n : nat) : size_of (replicate n 1) = 1.
Proof. induction n as [|n IH]; simpl; [reflexivity|]. rewrite IH. lia. Qed.

Lemma concat_replicate_replicate (e m : nat) (c : R) :
  concat (replicate e (replicate m c)) = replicate (e * m) c.
Proof.
  induction e as [|e IH]; simpl; [reflexivity|].
  now rewrite IH, replicate_add.
Qed.

(** A scalar broadcast to a shape fills it. *)
Lemma expand_scalar (s : list nat) (c : R) :
  expand (replicate (length s) 1) s [c] = replicate (size_of s) c.
Proof.
  induction s as [|e s IH]; [reflexivity|].
  cbn [length replicate expand size_of fold_right].
  fold (size_of s). fold (size_of (replicate (length s) 1)).
  rewrite size_of_ones.
  destruct (1 =? e) eqn:E.
  - apply Nat.eqb_eq in E. subst e. cbn [chunks take drop map concat].
    rewrite IH, app_nil_r. f_equal. lia.
  - rewrite IH. apply concat_replicate_replicate.
Qed.

Lemma broadcast_dims_ones_l (s : list nat) :
  broadcast_dims (replicate (length s) 1) s = Some s.
Proof.
  induction s as [|e s IH]; simpl; [reflexivity|]. rewrite IH.
  unfold broadcast_dim. destruct (1 =? e) eqn:E; [|reflexivity].
  apply Nat.eqb_eq in E. now subst e.
Qed.

Lemma broadcast_shapes_nil_l (s : list nat) : broadcast_shapes [] s = Some s.
Proof.
  unfold broadcast_shapes. simpl. rewrite pad_shape_self.
  unfold pad_shape. simpl. rewrite Nat.sub_0_r, app_nil_r.
  apply broadcast_dims_ones_l.
Qed.

Lemma zip_with_replicate_2 (f : R -> R -> R) (n : nat) (a b : R) :
  zip_with f (replicate n a) (replicate n b) = replicate n (f a b).
Proof. induction n as [|n IH]; simpl; [reflexivity|]. now rewrite IH. Qed.

(** [c * np.ones_like(d)] for a scalar array [c]. *)
Lemma nd_mul_scalar_ones (c : R) (d : ndarray R) :
  nd_mul (np_array c) (ones_like d)
  = Ok (mk_ndarray (nd_shape d)
          (replicate (size_of (nd_shape d)) (rmul c rone))).
Proof.
  unfold nd_mul, nd_binop. cbn [nd_shape np_array ones_like].
  rewrite broadcast_shapes_nil_l. f_equal. f_equal.
  assert (Hw : nd_wf (ones_like d))
    by (unfold nd_wf, ones_like; simpl; apply length_replicate).
  pose proof (broadcast_to_same (ones_like d) Hw) as Ho.
  cbn [nd_shape ones_like] in Ho. rewrite Ho.
  unfold broadcast_to, pad_shape. cbn [nd_shape nd_elems np_array length].
  rewrite Nat.sub_0_r, app_nil_r, expand_scalar.
  cbn [nd_elems ones_like]. apply zip_with_replicate_2.
Qed.

Lemma backward_None_scalar (fuel : nat) (st : store R) self t :
  st !! self = Some t -> shape t = [] ->
  backward (S fuel) self None st
  = backward (S fuel) self (Some (np_array rone)) st.
Proof.
  intros L Hs. rewrite !backward_S, L, Hs. reflexivity.
Qed.

(** X14. [x.sum()] holds the sum of all the elements of [x] as a scalar
    of empty shape.  For a differentiable leaf [x], [backward] on the sum
    with the scalar seed [c] (or with no seed, which stands for 1) hands
    [c * 1] to every position of [x]: [x.grad] ends as its previous
    content plus an array of the shape of [x] filled with that value. *)
Theorem tensor_sum_backward
        (fuel : nat) (st : store R) (x : ref) (tx gx : Tensor R) (c : R) :
  st !! x = Some tx ->
  requires_grad tx = true ->
  depends_on tx = dep_list [] ->
  grad tx = Some gx ->
  nd_shape (data gx) = nd_shape (data tx) ->
  exists ty g1 st2 tx',
    _tensor_sum x st = (st ++ [ty], Ok (length st)) /\
    data ty = np_array (rsum (nd_elems (data tx))) /\
    shape ty = [] /\
    nd_add (data gx)
           (mk_ndarray (nd_shape (data tx))
              (replicate (size_of (nd_shape (data tx))) (rmul c rone)))
    = Ok g1 /\
    backward (S (S fuel)) (length st) (Some (np_array c)) (st ++ [ty])
    = (st2, Ok tt) /\
    (c = rone ->
     backward (S (S fuel)) (length st) None (st ++ [ty]) = (st2, Ok tt)) /\
    st2 !! x = Some tx' /\
    option_map data (grad tx') = Some g1.
Proof.
  intros Hx Hrg Hleaf Hg Hgs.
  assert (Hlt : x < length st) by (eapply lookup_lt_Some; eauto).
  set (filled := mk_ndarray (nd_shape (data tx))
                   (replicate (size_of (nd_shape (data tx))) (rmul c rone))).
  destruct (nd_binop_same_shape radd (data gx) filled) as [g1 [Hg1 _]];
    [simpl; congruence|].
  destruct (nd_binop_same_shape radd
              (zeros_like (nd_sum (data tx))) (np_array c))
    as [vy [Hvy _]]; [reflexivity|].
  set (ty := Tensor_init (nd_sum (data tx)) true
               (Some (dep_list [mkDependency x (tensor_sum_grad_fn (R:=R) x)]))).
  set (ty' := set_grad
                (Some (set_data vy
                         (plain_tensor (zeros_like (nd_sum (data tx))))))
                ty).
  set (st1 := <[length st := ty']> (st ++ [ty])).
  set (tx1 := set_grad (Some (set_data g1 gx)) tx).
  assert (L1 : st1 !! x = Some tx).
  { unfold st1. rewrite list_lookup_insert_ne by lia.
    now apply lookup_alloc_old. }
  assert (Hb : backward (S (S fuel)) (length st) (Some (np_array c))
                        (st ++ [ty]) = (<[x := tx1]> st1, Ok tt)).
  { rewrite (backward_dep_list (S fuel) (st ++ [ty]) (length st) ty
               (plain_tensor (zeros_like (nd_sum (data tx)))) (np_array c)
               vy _ (lookup_alloc_new st ty) eq_refl eq_refl eq_refl Hvy).
    change (<[length st := _]> (st ++ [ty])) with st1.
    rewrite (for_each_edge_ok (S fuel) (np_array c) filled x _ _ st1
               (<[x := tx1]> st1)).
    - reflexivity.
    - simpl. rewrite (lookup_tensor_Some _ _ _ L1). simpl.
      apply nd_mul_scalar_ones.
    - exact (backward_leaf fuel st1 x tx gx filled g1 L1 Hrg Hleaf Hg Hg1). }
  exists ty, g1, (<[x := tx1]> st1), tx1.
  split; [|split; [|split; [|split; [|split; [|split; [|split]]]]]].
  - unfold _tensor_sum, bind. rewrite (deref_Some _ _ _ Hx). cbn beta iota.
    rewrite Hrg. reflexivity.
  - reflexivity.
  - reflexivity.
  - exact Hg1.
  - exact Hb.
  - intros ->.
    rewrite (backward_None_scalar _ _ _ ty (lookup_alloc_new st ty) eq_refl).
    exact Hb.
  - eapply lookup_assign_same; eauto.
  - reflexivity.
Qed.

End SumBackward.

Lemma tensor_sum_backward_witness :
  exists st2 tx',
    backward 2 1 None (Examples.run (_tensor_sum 0) Examples.st_vec)
    = (st2, Ok tt) /\
    st2 !! 0 = Some tx' /\
    option_map data (grad tx') = Some (np_array_list [1; 1; 1]%Z).
Proof.
  destruct (tensor_sum_backward 0 Examples.st_vec 0
              (Tensor_init (np_array_list [1; 2; 3]%Z) true None)
              (plain_tensor (zeros_like (np_array_list [1; 2; 3]%Z)))
              1%Z eq_refl eq_refl eq_refl eq_refl eq_refl)
    as (ty & g1 & st2 & tx' & Hs & _ & _ & H1 & _ & Hb & L & G).
  exists st2, tx'. split; [|split; [exact L|]].
  - unfold Examples.run. rewrite Hs. exact (Hb eq_refl).
  - rewrite G. vm_compute in H1. injection H1 as <-. reflexivity.
Defined.

Section AddBroadcast.
Context {R : Type} `{!Scalar R}.

Lemma broadcast_dim_comm d e : broadcast_dim d e = broadcast_dim e d.
Proof.
  unfold broadcast_dim.
  destruct (d =? e) eqn:E1.
  - apply Nat.eqb_eq in E1. subst e. now rewrite Nat.eqb_refl.
  - rewrite (Nat.eqb_sym e d), E1.
    destruct (d =? 1) eqn:E2, (e =? 1) eqn:E3; try reflexivity.
    apply Nat.eqb_eq in E2, E3. apply Nat.eqb_neq in E1. congruence.
Qed.

Lemma broadcast_dims_comm s :
  forall t, broadcast_dims s t = broadcast_dims t s.
Proof.
  induction s as [|d s IH]; intros [|e t]; simpl; try reflexivity.
  now rewrite broadcast_dim_comm, IH.
Qed.

Lemma broadcast_shapes_comm s t : broadcast_shapes s t = broadcast_shapes t s.
Proof.
  unfold broadcast_shapes. rewrite Nat.max_comm. apply broadcast_dims_comm.
Qed.

(** The reduction brings a broadcast expansion back to the operand's
    shape. *)
Lemma reduce_grad_expansion (t : Tensor R) (g : ndarray R) :
  nd_ndim (data t) = length (shape t) ->
  broadcast_expansion (shape t) (nd_shape g) ->
  exists r, reduce_grad t g = Ok r /\ nd_shape r = shape t.
Proof.
  intros Hn Hexp.
  destruct (broadcast_expansion_inv _ _ Hexp) as [pre [u [Hs [Hl Hf]]]].
  unfold reduce_grad.
  replace (Z.to_nat (Z.of_nat (nd_ndim g) - Z.of_nat (nd_ndim (data t))))
    with (length pre) by (unfold nd_ndim at 1; lia).
  destruct (sum_added_dims_shape pre u g Hs) as [r1 [E1 [S1 _]]].
  rewrite E1. simpl.
  destruct (sum_broadcast_dims_shape (shape t) [] u r1 S1 Hf)
    as [r [E [S _]]].
  exists r. split; [exact E|exact S].
Qed.

(** X15. Gradients come back in the operands' shapes under
    broadcasting: for distinct differentiable leaves [a] and [b] whose
    shapes broadcast to [s], [y = a + b] has data of shape [s], and
    [y.backward(seed)] with a seed of shape [s] succeeds and leaves
    [a.grad] with the shape of [a] and [b.grad] with the shape of [b]. *)
Theorem add_broadcast_backward
        (fuel : nat) (st : store R) (a b : ref) (ta tb ga gb : Tensor R)
        (s : list nat) (seed : ndarray R) :
  a <> b ->
  st !! a = Some ta -> st !! b = Some tb ->
  requires_grad ta = true -> requires_grad tb = true ->
  depends_on ta = dep_list [] -> depends_on tb = dep_list [] ->
  grad ta = Some ga -> grad tb = Some gb ->
  shape ta = nd_shape (data ta) -> shape tb = nd_shape (data tb) ->
  nd_shape (data ga) = nd_shape (data ta) ->
  nd_shape (data gb) = nd_shape (data tb) ->
  broadcast_shapes (nd_shape (data ta)) (nd_shape (data tb)) = Some s ->
  nd_shape seed = s ->
  exists ty st2 ta' tb' va vb,
    _add a b st = (st ++ [ty], Ok (length st)) /\
    nd_shape (data ty) = s /\
    backward (S (S fuel)) (length st) (Some seed) (st ++ [ty])
    = (st2, Ok tt) /\
    st2 !! a = Some ta' /\ option_map data (grad ta') = Some va /\
    nd_shape va = nd_shape (data ta) /\
    st2 !! b = Some tb' /\ option_map data (grad tb') = Some vb /\
    nd_shape vb = nd_shape (data tb).
Proof.
  intros Hab La Lb Hra Hrb Hda Hdb Hga Hgb Hsa Hsb Hgas Hgbs Hbc Hseed.
  assert (Hlta : a < length st) by (eapply lookup_lt_Some; eauto).
  assert (Hltb : b < length st) by (eapply lookup_lt_Some; eauto).
  set (d := mk_ndarray s (zip_with radd (broadcast_to (data ta) s)
                                        (broadcast_to (data tb) s))).
  assert (Hd : nd_add (data ta) (data tb) = Ok d)
    by (unfold nd_add, nd_binop; now rewrite Hbc).
  destruct (reduce_grad_expansion ta seed) as [ca [Hca Hcas]].
  { unfold nd_ndim. now rewrite Hsa. }
  { exists (nd_shape (data tb)). rewrite Hsa, Hseed. exact Hbc. }
  destruct (reduce_grad_expansion tb seed) as [cb [Hcb Hcbs]].
  { unfold nd_ndim. now rewrite Hsb. }
  { exists (nd_shape (data ta)).
    rewrite Hsb, Hseed, broadcast_shapes_comm. exact Hbc. }
  destruct (nd_binop_same_shape radd (data ga) ca) as [va [Hva Hvas]];
    [congruence|].
  destruct (nd_binop_same_shape radd (data gb) cb) as [vb [Hvb Hvbs]];
    [congruence|].
  destruct (nd_binop_same_shape radd (zeros_like d) seed) as [vy [Hvy _]];
    [simpl; congruence|].
  set (ty := Tensor_init d true
               (Some (dep_list [mkDependency a (add_grad_fn1 a);
                                mkDependency b (add_grad_fn2 b)]))).
  set (ty' := set_grad (Some (set_data vy (plain_tensor (zeros_like d)))) ty).
  set (ta1 := set_grad (Some (set_data va ga)) ta).
  set (tb1 := set_grad (Some (set_data vb gb)) tb).
  set (st1 := <[length st := ty']> (st ++ [ty])).
  assert (L1a : st1 !! a = Some ta).
  { unfold st1. rewrite list_lookup_insert_ne by lia.
    now apply lookup_alloc_old. }
  assert (L1b : st1 !! b = Some tb).
  { unfold st1. rewrite list_lookup_insert_ne by lia.
    now apply lookup_alloc_old. }
  assert (L2a : <[a := ta1]> st1 !! a = Some ta1)
    by (eapply lookup_assign_same; eauto).
  assert (L2b : <[a := ta1]> st1 !! b = Some tb)
    by (now rewrite list_lookup_insert_ne).
  exists ty, (<[b := tb1]> (<[a := ta1]> st1)), ta1, tb1, va, vb.
  repeat match goal with |- _ /\ _ => split end;
    try reflexivity; try congruence.
  - unfold _add, bind, lift.
    rewrite (deref_Some _ _ _ La). cbn beta iota.
    rewrite (deref_Some _ _ _ Lb). cbn beta iota.
    rewrite Hd, Hra, Hrb. reflexivity.
  - rewrite (backward_dep_list (S fuel) (st ++ [ty]) (length st) ty
               (plain_tensor (zeros_like d)) seed vy _
               (lookup_alloc_new st ty) eq_refl eq_refl eq_refl Hvy).
    change (<[length st := _]> (st ++ [ty])) with st1.
    rewrite (for_each_edge_ok (S fuel) seed ca a _ _ st1 (<[a := ta1]> st1)).
    + rewrite (for_each_edge_ok (S fuel) seed cb b _ _ (<[a := ta1]> st1)
                 (<[b := tb1]> (<[a := ta1]> st1))).
      * reflexivity.
      * rewrite (call_add_grad_fn2 _ _ _ _ L2b). exact Hcb.
      * exact (backward_leaf fuel (<[a := ta1]> st1) b tb gb cb vb
                 L2b Hrb Hdb Hgb Hvb).
    + rewrite (call_add_grad_fn1 _ _ _ _ L1a). exact Hca.
    + exact (backward_leaf fuel st1 a ta ga ca va L1a Hra Hda Hga Hva).
  - rewrite list_lookup_insert_ne by congruence. exact L2a.
  - eapply lookup_assign_same; eauto.
Qed.

End AddBroadcast.

Lemma add_broadcast_backward_witness :
  let a_data : ndarray Z := mk_ndarray [1; 3] [1; 2; 3]%Z in
  let b_data : ndarray Z := mk_ndarray [2; 1] [10; 20]%Z in
  let st := Examples.run (Tensor_new b_data true None)
              (Examples.run (Tensor_new a_data true None) []) in
  let seed : ndarray Z := mk_ndarray [2; 3] [1; 1; 1; 1; 1; 1]%Z in
  exists ty st2 ta' tb' va vb,
    _add 0 1 st = (st ++ [ty], Ok 2) /\
    nd_shape (data ty) = [2; 3] /\
    backward 2 2 (Some seed) (st ++ [ty]) = (st2, Ok tt) /\
    st2 !! 0 = Some ta' /\ option_map data (grad ta') = Some va /\
    nd_shape va = [1; 3] /\
    st2 !! 1 = Some tb' /\ option_map data (grad tb') = Some vb /\
    nd_shape vb = [2; 1].
Proof.
  intros a_data b_data st seed.
  exact (add_broadcast_backward 0 st 0 1
           (Tensor_init a_data true None) (Tensor_init b_data true None)
           (plain_tensor (zeros_like a_data)) (plain_tensor (zeros_like b_data))
           [2; 3] seed
           ltac:(discriminate) eq_refl eq_refl eq_refl eq_refl eq_refl eq_refl
           eq_refl eq_refl eq_refl eq_refl eq_refl eq_refl eq_refl eq_refl).
Defined.

Section SubBackward.
Context {R : Type} `{!Scalar R}.

(** X16. Subtraction differentiates through its two nodes.  For distinct
    differentiable leaves [a] and [b] of one shape, [a - b] first builds
    [-b] and then the sum of [a] and [-b]; [backward] on the result with
    a seed of that shape succeeds, adds the seed to [a.grad] and the
    negated seed to [b.grad]. *)
Theorem sub_backward
        (fuel : nat) (st : store R) (a b : ref) (ta tb ga gb : Tensor R)
        (seed : ndarray R) :
  a <> b ->
  st !! a = Some ta -> st !! b = Some tb ->
  requires_grad ta = true -> requires_grad tb = true ->
  depends_on ta = dep_list [] -> depends_on tb = dep_list [] ->
  grad ta = Some ga -> grad tb = Some gb ->
  shape ta = nd_shape (data ta) ->
  nd_shape (data tb) = nd_shape (data ta) ->
  nd_shape (data ga) = nd_shape (data ta) ->
  nd_shape (data gb) = nd_shape (data tb) ->
  nd_shape seed = nd_shape (data ta) -> nd_wf seed ->
  exists tn ty va vb st2 ta' tb',
    _sub a b st = ((st ++ [tn]) ++ [ty], Ok (S (length st))) /\
    data tn = nd_neg (data tb) /\
    nd_add (data ta) (nd_neg (data tb)) = Ok (data ty) /\
    nd_add (data ga) seed = Ok va /\
    nd_add (data gb) (nd_neg seed) = Ok vb /\
    backward (S (S (S fuel))) (S (length st)) (Some seed)
             ((st ++ [tn]) ++ [ty])
    = (st2, Ok tt) /\
    st2 !! a = Some ta' /\ option_map data (grad ta') = Some va /\
    st2 !! b = Some tb' /\ option_map data (grad tb') = Some vb.
Proof.
  intros Hab La Lb Hra Hrb Hda Hdb Hga Hgb Hsa Hsba Hgas Hgbs Hseed Hw.
  assert (Hlta : a < length st) by (eapply lookup_lt_Some; eauto).
  assert (Hltb : b < length st) by (eapply lookup_lt_Some; eauto).
  set (n := length st).
  set (tn := Tensor_init (nd_neg (data tb)) true
               (Some (dep_list [mkDependency b (neg_grad_fn (R:=R))]))).
  destruct (nd_binop_same_shape radd (data ta) (nd_neg (data tb)))
    as [d [Hd Hds]]; [simpl; congruence|].
  change (nd_add (data ta) (nd_neg (data tb)) = Ok d) in Hd.
  set (ty := Tensor_init d true
               (Some (dep_list [mkDependency a (add_grad_fn1 a);
                                mkDependency n (add_grad_fn2 n)]))).
  destruct (nd_binop_same_shape radd (data ga) seed) as [va [Hva _]];
    [congruence|].
  destruct (nd_binop_same_shape radd (data gb) (nd_neg seed))
    as [vb [Hvb _]]; [simpl; congruence|].
  destruct (nd_binop_same_shape radd (zeros_like d) seed) as [vy [Hvy _]];
    [simpl; congruence|].
  destruct (nd_binop_same_shape radd (zeros_like (nd_neg (data tb))) seed)
    as [vn [Hvn _]]; [simpl; congruence|].
  set (s0 := (st ++ [tn]) ++ [ty]).
  set (ty' := set_grad (Some (set_data vy (plain_tensor (zeros_like d)))) ty).
  set (tn' := set_grad
                (Some (set_data vn
                         (plain_tensor (zeros_like (nd_neg (data tb))))))
                tn).
  set (ta1 := set_grad (Some (set_data va ga)) ta).
  set (tb1 := set_grad (Some (set_data vb gb)) tb).
  set (s1 := <[S n := ty']> s0).
  set (s2 := <[a := ta1]> s1).
  set (s3 := <[n := tn']> s2).
  set (s4 := <[b := tb1]> s3).
  assert (Hlen : length (st ++ [tn]) = S n)
    by (rewrite length_app; simpl; unfold n; lia).
  assert (Ln : (st ++ [tn]) !! n = Some tn) by apply lookup_alloc_new.
  assert (L0 : s0 !! S n = Some ty)
    by (unfold s0; rewrite <- Hlen; apply lookup_alloc_new).
  assert (L1a : s1 !! a = Some ta).
  { unfold s1, s0. rewrite list_lookup_insert_ne by (unfold n; lia).
    now do 2 apply lookup_alloc_old. }
  assert (L2a : s2 !! a = Some ta1)
    by (eapply lookup_assign_same; eauto).
  assert (L2n : s2 !! n = Some tn).
  { unfold s2, s1, s0. rewrite !list_lookup_insert_ne by (unfold n; lia).
    now apply lookup_alloc_old. }
  assert (L3b : s3 !! b = Some tb).
  { unfold s3, s2, s1, s0.
    rewrite !list_lookup_insert_ne by (unfold n; lia || congruence).
    now do 2 apply lookup_alloc_old. }
  assert (Hca : reduce_grad ta seed = Ok seed).
  { apply reduce_grad_same_shape; [|congruence|exact Hw].
    unfold nd_ndim. now rewrite Hsa. }
  assert (Hcn : reduce_grad tn seed = Ok seed).
  { apply reduce_grad_same_shape; [reflexivity| |exact Hw].
    simpl. congruence. }
  exists tn, ty, va, vb, s4, ta1, tb1.
  repeat match goal with |- _ /\ _ => split end;
    try reflexivity; try assumption.
  - unfold _sub, bind at 1.
    replace (_neg b st) with (st ++ [tn], @Ok (ref) n).
    + cbn beta iota. unfold _add, bind, lift.
      rewrite (deref_Some _ _ _ (lookup_alloc_old st tn ta a La)).
      cbn beta iota. rewrite (deref_Some _ _ _ Ln). cbn beta iota.
      change (data tn) with (nd_neg (data tb)).
      rewrite Hd, Hra. rewrite <- Hlen. reflexivity.
    + unfold _neg, bind. rewrite (deref_Some _ _ _ Lb). cbn beta iota.
      rewrite Hrb. reflexivity.
  - change (backward (S (S (S fuel))) (S n) (Some seed) s0 = (s4, Ok tt)).
    rewrite (backward_dep_list (S (S fuel)) s0 (S n) ty
               (plain_tensor (zeros_like d)) seed vy _
               L0 eq_refl eq_refl eq_refl Hvy).
    change (<[S n := _]> s0) with s1.
    rewrite (for_each_edge_ok (S (S fuel)) seed seed a _ _ s1 s2).
    + rewrite (for_each_edge_ok (S (S fuel)) seed seed n _ _ s2 s4).
      * reflexivity.
      * rewrite (call_add_grad_fn2 _ _ _ _ L2n). exact Hcn.
      * rewrite (backward_dep_list (S fuel) s2 n tn
                   (plain_tensor (zeros_like (nd_neg (data tb)))) seed vn _
                   L2n eq_refl eq_refl eq_refl Hvn).
        change (<[n := _]> s2) with s3.
        rewrite (for_each_edge_ok (S fuel) seed (nd_neg seed) b _ _ s3 s4).
        -- reflexivity.
        -- reflexivity.
        -- exact (backward_leaf fuel s3 b tb gb (nd_neg seed) vb
                    L3b Hrb Hdb Hgb Hvb).
    + rewrite (call_add_grad_fn1 _ _ _ _ L1a). exact Hca.
    + exact (backward_leaf (S fuel) s1 a ta ga seed va L1a Hra Hda Hga Hva).
  - unfold s4, s3. rewrite !list_lookup_insert_ne by (unfold n; lia).
    exact L2a.
  - eapply lookup_assign_same; eauto.
Qed.

End SubBackward.

Lemma sub_backward_witness :
  let a_data : ndarray Z := np_array_list [5; 7]%Z in
  let b_data : ndarray Z := np_array_list [1; 2]%Z in
  let st := Examples.run (Tensor_new b_data true None)
              (Examples.run (Tensor_new a_data true None) []) in
  let seed : ndarray Z := np_array_list [1; 1]%Z in
  exists st1 st2 ta' tb',
    _sub 0 1 st = (st1, Ok 3) /\
    backward 3 3 (Some seed) st1 = (st2, Ok tt) /\
    st2 !! 0 = Some ta' /\
    option_map data (grad ta') = Some (np_array_list [1; 1]%Z) /\
    st2 !! 1 = Some tb' /\
    option_map data (grad tb') = Some (np_array_list [-1; -1]%Z).
Proof.
  intros a_data b_data st seed.
  destruct (sub_backward 0 st 0 1
              (Tensor_init a_data true None) (Tensor_init b_data true None)
              (plain_tensor (zeros_like a_data))
              (plain_tensor (zeros_like b_data))
              seed
              ltac:(discriminate) eq_refl eq_refl eq_refl eq_refl eq_refl
              eq_refl eq_refl eq_refl eq_refl eq_refl eq_refl eq_refl
              eq_refl eq_refl)
    as (tn & ty & va & vb & st2 & ta' & tb'
        & Hs & _ & _ & Ha & Hb & Hbw & La & Ga & Lb & Gb).
  exists ((st ++ [tn]) ++ [ty]), st2, ta', tb'.
  vm_compute in Ha. injection Ha as <-.
  vm_compute in Hb. injection Hb as <-.
  repeat split; assumption.
Defined.
